(** * The FFT log plotter of [simulation_results/plotter.py]

    The script reads the lines of [stdout.txt], locates the block of FFT
    output between the header line and the next blank line, cuts a bin
    index and two hexadecimal numbers out of every line of the block by
    substring search, and hands the three lists to the plotting library.

    The embedding follows the script statement by statement.  Python's
    [str] is a list of characters ([text]); characters are ASCII.  A raised
    [ValueError] ends the run; the model records which statement raised
    it.  What the script prints and what it asks the plotting library to
    draw is recorded as a trace of events in the state, next to the three
    lists the loop appends to. *)

From Stdlib Require Import Ascii String.
From Stdlib Require Import List ZArith Lia Bool Arith Permutation.
Import ListNotations.

Local Open Scope char_scope.
Local Open Scope list_scope.

(** ** Text *)

Definition text := list ascii.

Definition txt (s : string) : text := list_ascii_of_string s.

Definition NL : ascii := "010".

(** The literals of the script. *)
Definition HEADER : text := txt "Capturing FFT output (frequency domain):" ++ [NL].
Definition BLANK : text := [NL].
Definition BIN_OPEN : text := txt "Bin[".
Definition BIN_CLOSE : text := txt "]".
Definition REAL_OPEN : text := txt "Real=".
Definition IMAG_OPEN : text := txt "Imag=".
Definition SPACE : text := txt " ".

Fixpoint text_eqb (a b : text) : bool :=
  match a, b with
  | [], [] => true
  | x :: a', y :: b' => Ascii.eqb x y && text_eqb a' b'
  | _, _ => false
  end.

(** [s.startswith(p)] *)
Fixpoint starts_with (p s : text) : bool :=
  match p, s with
  | [], _ => true
  | x :: p', y :: s' => Ascii.eqb x y && starts_with p' s'
  | _ :: _, [] => false
  end.

(** [s.index(sub)]: the lowest position at which [sub] occurs in [s];
    [None] stands for the [ValueError] Python raises when there is none. *)
Fixpoint str_index (sub s : text) : option nat :=
  if starts_with sub s then Some 0%nat
  else match s with
       | [] => None
       | _ :: s' => option_map S (str_index sub s')
       end.

(** [ls.index(x)] on a list of lines. *)
Fixpoint list_index (x : text) (ls : list text) : option nat :=
  match ls with
  | [] => None
  | y :: ls' => if text_eqb y x then Some 0%nat
                else option_map S (list_index x ls')
  end.

(** [s[a:b]] and [s[a:]] for non-negative [a] and [b]. *)
Definition slice {A} (a b : nat) (s : list A) : list A := firstn (b - a) (skipn a s).
Definition slice_from {A} (a : nat) (s : list A) : list A := skipn a s.

(** ** The run: state, errors and events *)

Inductive event :=
| Print (l : text)                              (* print(l) *)
| Plot (xs ys : list Z) (label : string)        (* plt.plot(xs, ys, label=...) *)
| Legend                                        (* plt.legend() *)
| Show.                                         (* plt.show() *)

(** Every failure of the script is a [ValueError]; the constructors say
    which statement raised it.  [n] is the position of the line in the
    block. *)
Inductive error :=
| HeaderNotFound                                (* lines.index(header) *)
| BlankNotFound                                 (* lines[start:].index("\n") *)
| TokenNotFound (n : nat) (tok : text)          (* l.index(tok), l[k:].index(tok) *)
| BadInt (n : nat) (tok : text) (base : Z).     (* int(tok), int(tok, 16) *)

(** The taxonomy of the specification. *)
Inductive error_class := NotFoundError | FormatError.

Definition classify (e : error) : error_class :=
  match e with
  | HeaderNotFound | BlankNotFound => NotFoundError
  | TokenNotFound _ _ | BadInt _ _ _ => FormatError
  end.

Definition error_line (e : error) : option nat :=
  match e with
  | TokenNotFound n _ | BadInt n _ _ => Some n
  | _ => None
  end.

Record state := mkState {
  out : list event;     (* what was printed and plotted so far, oldest first *)
  bins : list Z;
  real : list Z;
  imag : list Z
}.

Definition initial : state := mkState [] [] [] [].

Inductive outcome (A : Type) :=
| Done (a : A)
| Raised (e : error).
Arguments Done {A} a.
Arguments Raised {A} e.

(** A statement of the script: it changes the state and either finishes
    or raises. *)
Definition M (A : Type) := state -> outcome A * state.

Definition ret {A} (a : A) : M A := fun s => (Done a, s).

Definition bind {A B} (m : M A) (k : A -> M B) : M B :=
  fun s => match m s with
           | (Done a, s') => k a s'
           | (Raised e, s') => (Raised e, s')
           end.

Definition raise {A} (e : error) : M A := fun s => (Raised e, s).

Notation "x <- m ;; k" := (bind m (fun x => k))
  (at level 61, m at next level, right associativity).
Notation "m ;;; k" := (bind m (fun _ => k))
  (at level 61, right associativity).

Definition or_raise {A} (e : error) (o : option A) : M A :=
  match o with
  | Some a => ret a
  | None => raise e
  end.

Definition emit (e : event) : M unit :=
  fun s => (Done tt, mkState (out s ++ [e]) (bins s) (real s) (imag s)).

Definition append_bins (v : Z) : M unit :=
  fun s => (Done tt, mkState (out s) (bins s ++ [v]) (real s) (imag s)).
Definition append_real (v : Z) : M unit :=
  fun s => (Done tt, mkState (out s) (bins s) (real s ++ [v]) (imag s)).
Definition append_imag (v : Z) : M unit :=
  fun s => (Done tt, mkState (out s) (bins s) (real s) (imag s ++ [v])).

Definition get : M state := fun s => (Done s, s).

(** ** [int(text, base)]

    The conversion of the interpreter, for ASCII text: leading and
    trailing whitespace, an optional sign, for base 16 an optional [0x],
    then digits with single underscores between them. *)

Definition Py_ISSPACE (c : ascii) : bool :=
  let n := nat_of_ascii c in
  ((9 <=? n) && (n <=? 13) || (n =? 32))%nat.

(** The value of a character as a digit in bases up to 36. *)
Definition digit_value (c : ascii) : option Z :=
  let n := Z.of_nat (nat_of_ascii c) in
  (if (48 <=? n) && (n <=? 57) then Some (n - 48)
   else if (97 <=? n) && (n <=? 122) then Some (n - 87)
   else if (65 <=? n) && (n <=? 90) then Some (n - 55)
   else None)%Z.

Fixpoint lstrip (s : text) : text :=
  match s with
  | c :: s' => if Py_ISSPACE c then lstrip s' else s
  | [] => []
  end.

Definition is_underscore (c : ascii) : bool := Ascii.eqb c "_".

(** The digit loop: digits below [base] and single underscores between
    them.  Returns the value read, the number of digits and the rest of
    the text; [None] when two underscores meet or one ends the run. *)
Fixpoint scan_digits (base : Z) (prev_us : bool) (acc : Z) (n : nat) (s : text)
  : option (Z * nat * text) :=
  let stop := if prev_us then None else Some (acc, n, s) in
  match s with
  | [] => stop
  | c :: s' =>
      if is_underscore c then
        if prev_us then None else scan_digits base true acc n s'
      else
        match digit_value c with
        | Some d => if (d <? base)%Z
                    then scan_digits base false (acc * base + d)%Z (S n) s'
                    else stop
        | None => stop
        end
  end.

(** The letter of the base prefix [int] accepts for this base. *)
Definition prefix_letter (base : Z) (c : ascii) : bool :=
  (if base =? 16 then Ascii.eqb c "x" || Ascii.eqb c "X"
   else if base =? 8 then Ascii.eqb c "o" || Ascii.eqb c "O"
   else if base =? 2 then Ascii.eqb c "b" || Ascii.eqb c "B"
   else false)%Z.

Definition skip_prefix (base : Z) (s : text) : text :=
  match s with
  | c0 :: c :: s' =>
      if Ascii.eqb c0 "0" && prefix_letter base c then
        match s' with
        | u :: s'' => if is_underscore u then s'' else s'
        | [] => []
        end
      else s
  | _ => s
  end.

Definition split_sign (s : text) : bool * text :=
  match s with
  | c :: s' =>
      if Ascii.eqb c "+" then (false, s')
      else if Ascii.eqb c "-" then (true, s')
      else (false, s)
  | [] => (false, [])
  end.

Definition leading_underscore (s : text) : bool :=
  match s with
  | c :: _ => is_underscore c
  | [] => false
  end.

Definition power_of_two (base : Z) : bool :=
  (Z.land base (base - 1) =? 0)%Z.

Section Interpreter.

(** The interpreter's limit on the number of digits [int] reads in a base
    that is no power of two ([sys.get_int_max_str_digits()]): 4300 unless
    configured, 0 when the limit is switched off or the interpreter has
    none. *)
Variable max_str_digits : nat.

Definition within_limit (base : Z) (digits : nat) : bool :=
  power_of_two base || (max_str_digits =? 0)%nat || (digits <=? max_str_digits)%nat.

(** [int(s, base)] for a base between 2 and 36; [None] stands for the
    [ValueError]. *)
Definition py_int (base : Z) (s : text) : option Z :=
  let '(neg, s2) := split_sign (lstrip s) in
  let s3 := skip_prefix base s2 in
  if leading_underscore s3 then None
  else
    match scan_digits base false 0 0 s3 with
    | None => None
    | Some (v, n, rest) =>
        if (n =? 0)%nat then None
        else if negb (within_limit base n) then None
        else match lstrip rest with
             | [] => Some (if neg then (- v)%Z else v)
             | _ :: _ => None
             end
    end.

(** ** The script *)

(** One field of a line: [open] is searched from the start of the line,
    [close] from the end of [open]; the text between them is the token. *)
Definition field (n : nat) (open close : text) (l : text) : M text :=
  i <- or_raise (TokenNotFound n open) (str_index open l) ;;
  let field_start := (i + length open)%nat in
  j <- or_raise (TokenNotFound n close) (str_index close (slice_from field_start l)) ;;
  let field_end := (field_start + j)%nat in
  ret (slice field_start field_end l).

Definition int_of (n : nat) (base : Z) (tok : text) : M Z :=
  or_raise (BadInt n tok base) (py_int base tok).

(** The body of the [for] loop, for the line [l] at position [n]. *)
Definition body (n : nat) (l : text) : M unit :=
  emit (Print l) ;;;
  tb <- field n BIN_OPEN BIN_CLOSE l ;;
  b <- int_of n 10 tb ;;
  append_bins b ;;;
  tr <- field n REAL_OPEN SPACE l ;;
  r <- int_of n 16 tr ;;
  append_real r ;;;
  ti <- field n IMAG_OPEN SPACE l ;;
  i <- int_of n 16 ti ;;
  append_imag i.

Fixpoint for_each (n : nat) (block : list text) : M unit :=
  match block with
  | [] => ret tt
  | l :: block' => body n l ;;; for_each (S n) block'
  end.

(** The four calls after the loop.  The trace records the calls the
    script makes; what the plotting library does with them is not
    modelled. *)
Definition plot_all : M unit :=
  s <- get ;;
  emit (Plot (bins s) (real s) "Real") ;;;
  emit (Plot (bins s) (imag s) "Imag") ;;;
  emit Legend ;;;
  emit Show.

(** The script from line 8 on; [lines] is what [f.readlines()] gave. *)
Definition main (lines : list text) : M unit :=
  h <- or_raise HeaderNotFound (list_index HEADER lines) ;;
  let start := (h + 1)%nat in
  k <- or_raise BlankNotFound (list_index BLANK (slice_from start lines)) ;;
  let end_ := (start + k)%nat in
  for_each 0 (slice start end_ lines) ;;;
  plot_all.

(** A run starts with an empty trace and the three lists empty. *)
Definition run (lines : list text) : outcome unit * state := main lines initial.


(** ** Reading the file

    [open(FILE, 'r')] reads text with universal newlines: a carriage
    return, alone or followed by a newline, is handed to the script as
    one newline.  [f.readlines()] cuts the text after every newline and
    keeps the newline at the end of its line; the last line has none when
    the file does not end with one. *)

Definition CR : ascii := "013".

Fixpoint universal_newlines (s : text) : text :=
  match s with
  | [] => []
  | c :: s' =>
      if Ascii.eqb c CR then
        NL :: match s' with
              | d :: s'' => if Ascii.eqb d NL then universal_newlines s''
                            else universal_newlines s'
              | [] => []
              end
      else c :: universal_newlines s'
  end.

Fixpoint split_lines (s : text) : list text :=
  match s with
  | [] => []
  | c :: s' =>
      if Ascii.eqb c NL then [NL] :: split_lines s'
      else match split_lines s' with
           | [] => [[c]]
           | l :: ls => (c :: l) :: ls
           end
  end.

(** [f.readlines()] on a file whose decoded content is [content]. *)
Definition readlines (content : text) : list text :=
  split_lines (universal_newlines content).

(** The script on a file with the given content (lines 6 to 31). *)
Definition script (content : text) : outcome unit * state :=
  run (readlines content).

(** Lines 8 to 26 of the script: the two searches and the loop, up to the
    plotting calls. *)
Definition read_block (lines : list text) : M unit :=
  h <- or_raise HeaderNotFound (list_index HEADER lines) ;;
  let start := (h + 1)%nat in
  k <- or_raise BlankNotFound (list_index BLANK (slice_from start lines)) ;;
  let end_ := (start + k)%nat in
  for_each 0 (slice start end_ lines).
(** * Specification-level notions *)

(** [sub] occurs in [s] at position [i]. *)
Definition occurs_at (sub s : text) (i : nat) : Prop :=
  exists pre post, s = pre ++ sub ++ post /\ length pre = i.

(** [i] is the lowest position at which [sub] occurs in [s]. *)
Definition first_at (sub s : text) (i : nat) : Prop :=
  occurs_at sub s i /\ forall j, occurs_at sub s j -> i <= j.

Definition absent (sub s : text) : Prop := forall j, ~ occurs_at sub s j.


(** The token of a field, as [field] cuts it, without the state. *)
Definition token (open close l : text) : option text :=
  match str_index open l with
  | None => None
  | Some i =>
      let field_start := (i + length open)%nat in
      match str_index close (slice_from field_start l) with
      | None => None
      | Some j => Some (slice field_start (field_start + j) l)
      end
  end.

Definition sample : Type := Z * Z * Z.

Definition bin_of (t : sample) : Z := fst (fst t).
Definition real_of (t : sample) : Z := snd (fst t).
Definition imag_of (t : sample) : Z := snd t.

(** The three numbers of a line, as the loop body reads them. *)
Definition sample_of (l : text) : option sample :=
  match token BIN_OPEN BIN_CLOSE l with
  | None => None
  | Some tb =>
      match py_int 10 tb with
      | None => None
      | Some b =>
          match token REAL_OPEN SPACE l with
          | None => None
          | Some tr =>
              match py_int 16 tr with
              | None => None
              | Some r =>
                  match token IMAG_OPEN SPACE l with
                  | None => None
                  | Some ti =>
                      match py_int 16 ti with
                      | None => None
                      | Some i => Some (b, r, i)
                      end
                  end
              end
          end
      end
  end.

(** The state after a line that gave the sample [t]. *)
Definition push (s : state) (l : text) (t : sample) : state :=
  mkState (out s ++ [Print l]) (bins s ++ [bin_of t])
          (real s ++ [real_of t]) (imag s ++ [imag_of t]).

(** The state after a block of lines that gave the samples [ts]. *)
Definition push_all (s : state) (block : list text) (ts : list sample) : state :=
  mkState (out s ++ map Print block) (bins s ++ map bin_of ts)
          (real s ++ map real_of ts) (imag s ++ map imag_of ts).

(** The format of a data line, said without the search functions: [tok]
    is the text between the first [open] of the line and the first
    [close] after it. *)
Definition token_between (open close l tok : text) : Prop :=
  exists pre post,
    l = pre ++ open ++ tok ++ close ++ post /\
    first_at open l (length pre) /\
    first_at close (tok ++ close ++ post) (length tok).

(** The line has no [open], or no [close] after its first [open]. *)
Definition missing (open close l : text) : Prop :=
  absent open l \/
  exists pre rest, l = pre ++ open ++ rest /\ first_at open l (length pre) /\
                   absent close rest.

(** One of the six delimiters of a data line is missing. *)
Definition lacks_token (l : text) : Prop :=
  missing BIN_OPEN BIN_CLOSE l \/ missing REAL_OPEN SPACE l \/
  missing IMAG_OPEN SPACE l.

(** A well-formed data line and the sample it denotes: the three
    delimited tokens are there and each is a numeral [int] accepts. *)
Definition data_line (l : text) (t : sample) : Prop :=
  exists tb tr ti,
    token_between BIN_OPEN BIN_CLOSE l tb /\ py_int 10 tb = Some (bin_of t) /\
    token_between REAL_OPEN SPACE l tr /\ py_int 16 tr = Some (real_of t) /\
    token_between IMAG_OPEN SPACE l ti /\ py_int 16 ti = Some (imag_of t).

(** Chart events, as opposed to the echo of a line. *)
Definition is_chart (e : event) : bool :=
  match e with
  | Print _ => false
  | _ => true
  end.

(** What the four plotting calls at the end of the script leave in the
    trace. *)
Definition chart_of (bs rs ims : list Z) : list event :=
  [Plot bs rs "Real"; Plot bs ims "Imag"; Legend; Show].

Definition HEADER_TEXT : text := txt "Capturing FFT output (frequency domain):".

Definition text_eq_dec : forall a b : text, {a = b} + {a <> b} :=
  list_eq_dec ascii_dec.

(** The three lists have [k] elements each. *)
Definition aligned (k : nat) (s : state) : Prop :=
  length (bins s) = k /\ length (real s) = k /\ length (imag s) = k.

(** The trace holds echoed lines only. *)
Definition echo_only (s : state) : Prop :=
  forall ev, In ev (out s) -> is_chart ev = false.

(** The number a list of digits denotes in a base, most significant digit
    first. *)
Fixpoint radix_value (base : Z) (ds : list Z) : Z :=
  match ds with
  | [] => 0
  | d :: r => d * base ^ Z.of_nat (length r) + radix_value base r
  end%Z.

(** The digits of a text in a base: the values of its characters that
    are digits of that base, in order. *)
Definition digits_below (base : Z) (s : text) : list Z :=
  flat_map (fun c => match digit_value c with
                     | Some d => if (d <? base)%Z then [d] else []
                     | None => []
                     end) s.

(** The first character after the leading whitespace is a minus sign. *)
Definition leading_minus (s : text) : bool :=
  match lstrip s with
  | c :: _ => Ascii.eqb c "-"
  | [] => false
  end.

(** ** Writing a sample back as a line

    The script only reads.  The round-trip property of the specification
    writes a sample back in the token format of the log and reads it
    again; the printer of this section is that writing. *)

(** The character of a digit below 16, upper case as in the log. *)
Definition digit_char (d : Z) : ascii :=
  ascii_of_nat (Z.to_nat (if d <? 10 then 48 + d else 55 + d)%Z).

Fixpoint digits_fuel (fuel : nat) (base n : Z) : text :=
  match fuel with
  | O => []
  | S fuel' =>
      if (n <? base)%Z then [digit_char n]
      else digits_fuel fuel' base (n / base)%Z ++ [digit_char (n mod base)%Z]
  end.

(** The digits of [n >= 0] in a base from 2 to 16, without leading
    zeros. *)
Definition digits (base n : Z) : text :=
  digits_fuel (S (Z.to_nat (Z.log2 n))) base n.

Definition pad (width : nat) (ds : text) : text :=
  repeat "0" (width - length ds) ++ ds.

Definition sign_text (z : Z) : text := if (z <? 0)%Z then ["-"] else [].

(** Modelled from the spec: the bin written as decimal digits, the repository
    has no printer.  A minus sign goes in front of a negative number. *)
Definition dec_text (z : Z) : text := sign_text z ++ digits 10 (Z.abs z).

(** Modelled from the spec: the real and imaginary parts written as
    hexadecimal text, the repository has no printer.  The numeral is
    written the way the log has it: the prefix, upper-case digits, at least
    eight of them; a minus sign goes in front of a negative number. *)
Definition hex_text (z : Z) : text :=
  sign_text z ++ txt "0x" ++ pad 8 (digits 16 (Z.abs z)).

(** The fields of a data line. *)
Inductive field_name := FBin | FReal | FImag.

Definition open_of (f : field_name) : text :=
  match f with
  | FBin => BIN_OPEN
  | FReal => REAL_OPEN
  | FImag => IMAG_OPEN
  end.

Definition close_of (f : field_name) : text :=
  match f with
  | FBin => BIN_CLOSE
  | FReal | FImag => SPACE
  end.

Definition numeral_of (t : sample) (f : field_name) : text :=
  match f with
  | FBin => dec_text (bin_of t)
  | FReal => hex_text (real_of t)
  | FImag => hex_text (imag_of t)
  end.

(** What follows the closing delimiter: a space after the bracket. *)
Definition gap_of (f : field_name) : text :=
  match f with
  | FBin => SPACE
  | FReal | FImag => []
  end.

Definition segment (t : sample) (f : field_name) : text :=
  open_of f ++ numeral_of t f ++ close_of f ++ gap_of f.

(** Modelled from the spec: a sample written in the token format, the
    repository has no printer.  Each field is its opening delimiter, its
    numeral and its closing delimiter; the fields of [t] come in the given
    order and the line ends with a newline. *)
Definition line_in (order : list field_name) (t : sample) : text :=
  concat (map (segment t) order) ++ [NL].

(** Modelled from the spec: the line of the log for [t], with the bin, the
    real part and the imaginary part in this order. *)
Definition line_of (t : sample) : text := line_in [FBin; FReal; FImag] t.

(** The decimal numeral of [z] is within the interpreter's limit. *)
Definition fits (z : Z) : Prop :=
  within_limit 10 (length (digits 10 (Z.abs z))) = true.

(** The characters of the numerals written by [dec_text] and [hex_text]. *)
Definition upper_hex_char (c : ascii) : bool :=
  match digit_value c with
  | Some d => (d <? 16)%Z && Ascii.eqb c (digit_char d)
  | None => false
  end.

Definition numeral_char (c : ascii) : bool :=
  upper_hex_char c || Ascii.eqb c "x" || Ascii.eqb c "-".

(** A text that begins with a digit of the printer. *)
Definition digit_first (s : text) : Prop :=
  match s with
  | c :: _ => upper_hex_char c = true
  | [] => False
  end.

(** The second character of the opening delimiter of a field: no other
    field of a printed line has it. *)
Definition guard_of (f : field_name) : ascii :=
  match f with
  | FBin => "i"
  | FReal => "e"
  | FImag => "m"
  end.

Definition close_char (f : field_name) : ascii :=
  match f with
  | FBin => "]"
  | FReal | FImag => " "
  end.

(** The scenario of the specification: the header, two data lines and the
    blank line. *)
Definition scenario : list text :=
  [ HEADER;
    txt "Bin[0] Real=0x0000000A Imag=0xFFFFFFF6 " ++ [NL];
    txt "Bin[1] Real=0x00000014 Imag=0xFFFFFFEC " ++ [NL];
    BLANK ].

(** Lines for the examples. *)
Definition line_a : text := txt "Bin[0] Real=0x0000000A Imag=0xFFFFFFF6 " ++ [NL].
Definition line_b : text := txt "Bin[1] Real=0x00000014 Imag=0xFFFFFFEC " ++ [NL].
Definition line_bad_bin : text := txt "Bin[x] Real=0x1 Imag=0x2 " ++ [NL].
Definition line_no_space : text := txt "Bin[2] Real=0x1 Imag=0x2" ++ [NL].
Definition line_junk : text := txt "junk" ++ [NL].
Definition line_reversed : text := txt "Imag=0x2 Real=0x1 Bin[3] " ++ [NL].

(** ** Files and lines *)

(** A text without newline and carriage return. *)
Definition one_line (s : text) : Prop := ~ In NL s /\ ~ In CR s.

(** A line as [readlines] gives it when it is not the last one: some text
    without line breaks, then the newline. *)
Definition full_line (l : text) : Prop :=
  exists s, l = s ++ [NL] /\ one_line s.

(** The file written with the line ends of Windows. *)
Definition to_crlf (s : text) : text :=
  flat_map (fun c => if Ascii.eqb c NL then [CR; NL] else [c]) s.

Definition all_space (s : text) : Prop := Forall (fun c => Py_ISSPACE c = true) s.

(** The number a numeral denotes: the value of its digits in the base,
    negated when a minus sign leads. *)
Definition signed_value (base : Z) (tok : text) : Z :=
  if leading_minus tok then (- radix_value base (digits_below base tok))%Z
  else radix_value base (digits_below base tok).

(** More lines for the examples. *)
Definition line_signed : text := txt "Bin[-3] Real=-0xA Imag=+0x_1f " ++ [NL].
Definition TAB : ascii := "009".

(** What an event writes to the standard output: [print(l)] writes the
    line and a newline of its own; the plotting calls write nothing. *)
Definition printed (e : event) : text :=
  match e with
  | Print l => l ++ [NL]
  | _ => []
  end.

Definition stdout (s : state) : text := concat (map printed (out s)).

(** Universal newlines, said without the function: [t] is [s] with every
    carriage return that a newline follows, taken together with that
    newline, and every other carriage return turned into one newline, and
    every other character kept. *)
Inductive newline_translation : text -> text -> Prop :=
| nt_end : newline_translation [] []
| nt_crlf (s t : text) :
    newline_translation s t ->
    newline_translation (CR :: NL :: s) (NL :: t)
| nt_cr (s t : text) :
    (forall r, s <> NL :: r) ->
    newline_translation s t ->
    newline_translation (CR :: s) (NL :: t)
| nt_char (c : ascii) (s t : text) :
    c <> CR ->
    newline_translation s t ->
    newline_translation (c :: s) (c :: t).

(** The text is ASCII: the domain on which [py_int] is the [int] of the
    interpreter. *)
Definition is_ascii (l : text) : bool :=
  forallb (fun c => (nat_of_ascii c <? 128)%nat) l.
(** * Lemmas *)

(** ** Substring search *)

Lemma text_eqb_eq (a b : text) : text_eqb a b = true <-> a = b.
Proof.
  revert b; induction a as [|x a IH]; intros [|y b]; simpl; try (split; congruence).
  rewrite andb_true_iff, Ascii.eqb_eq, IH. split.
  - intros [-> ->]; reflexivity.
  - intros H; injection H; auto.
Qed.

Lemma text_eqb_refl (a : text) : text_eqb a a = true.
Proof. apply text_eqb_eq; reflexivity. Qed.

Lemma text_eqb_neq (a b : text) : text_eqb a b = false <-> a <> b.
Proof.
  rewrite <- text_eqb_eq. destruct (text_eqb a b); split; congruence.
Qed.

Lemma starts_with_iff (p s : text) :
  starts_with p s = true <-> exists r, s = p ++ r.
Proof.
  revert s; induction p as [|x p IH]; intros s; simpl.
  - split; eauto.
  - destruct s as [|y s].
    + split; [discriminate | intros [r H]; discriminate].
    + rewrite andb_true_iff, Ascii.eqb_eq, IH. split.
      * intros [-> [r ->]]. exists r; reflexivity.
      * intros [r H]. injection H as -> ->. eauto.
Qed.

Lemma starts_with_app (p r : text) : starts_with p (p ++ r) = true.
Proof. apply starts_with_iff; eauto. Qed.

Lemma occurs_at_0 (sub s : text) :
  occurs_at sub s 0 <-> starts_with sub s = true.
Proof.
  rewrite starts_with_iff. split.
  - intros (pre & post & -> & Hl). destruct pre; [|discriminate]. simpl; eauto.
  - intros [r ->]. exists [], r; auto.
Qed.

Lemma occurs_at_S (sub : text) (c : ascii) (s : text) (i : nat) :
  occurs_at sub (c :: s) (S i) <-> occurs_at sub s i.
Proof.
  split.
  - intros (pre & post & E & Hl). destruct pre as [|x pre]; [discriminate|].
    injection E as -> ->. injection Hl as <-. exists pre, post; auto.
  - intros (pre & post & -> & <-). exists (c :: pre), post; auto.
Qed.

Lemma occurs_at_nil (sub : text) (i : nat) :
  occurs_at sub [] i -> sub = [] /\ i = 0.
Proof.
  intros (pre & post & E & <-). symmetry in E.
  apply app_eq_nil in E as [-> E]. apply app_eq_nil in E as [-> _]. auto.
Qed.

Lemma str_index_None_absent (sub s : text) :
  str_index sub s = None -> absent sub s.
Proof.
  induction s as [|c s IH]; simpl; intros H j Hj.
  - destruct (starts_with sub []) eqn:E; [discriminate|].
    destruct (occurs_at_nil _ _ Hj) as [-> _]. discriminate.
  - destruct (starts_with sub (c :: s)) eqn:E; [discriminate|].
    destruct (str_index sub s); [discriminate|].
    destruct j as [|j].
    + apply occurs_at_0 in Hj. congruence.
    + apply occurs_at_S in Hj. exact (IH eq_refl j Hj).
Qed.

Lemma str_index_Some_first (sub s : text) (i : nat) :
  str_index sub s = Some i -> first_at sub s i.
Proof.
  revert i; induction s as [|c s IH]; simpl; intros i H.
  - destruct (starts_with sub []) eqn:E; [|discriminate].
    injection H as <-. split; [apply occurs_at_0; exact E | lia].
  - destruct (starts_with sub (c :: s)) eqn:E.
    + injection H as <-. split; [apply occurs_at_0; exact E | lia].
    + destruct (str_index sub s) as [k|]; [|discriminate].
      injection H as <-. destruct (IH k eq_refl) as [Ho Hm].
      split; [apply occurs_at_S; exact Ho|].
      intros [|j] Hj.
      * apply occurs_at_0 in Hj. congruence.
      * apply occurs_at_S in Hj. apply Hm in Hj. lia.
Qed.

Lemma first_at_unique (sub s : text) (i j : nat) :
  first_at sub s i -> first_at sub s j -> i = j.
Proof.
  intros [Hi Hmi] [Hj Hmj]. apply Hmi in Hj. apply Hmj in Hi. lia.
Qed.

Lemma str_index_Some (sub s : text) (i : nat) :
  str_index sub s = Some i <-> first_at sub s i.
Proof.
  split; [apply str_index_Some_first|].
  intros H. destruct (str_index sub s) as [k|] eqn:E.
  - f_equal. eapply first_at_unique; [apply str_index_Some_first|]; eassumption.
  - apply str_index_None_absent in E. destruct H as [H _]. elim (E _ H).
Qed.

Lemma str_index_None (sub s : text) :
  str_index sub s = None <-> absent sub s.
Proof.
  split; [apply str_index_None_absent|].
  intros H. destruct (str_index sub s) as [k|] eqn:E; [|reflexivity].
  apply str_index_Some_first in E as [E _]. elim (H _ E).
Qed.

Lemma skipn_app_exact {A} (a b : list A) : skipn (length a) (a ++ b) = b.
Proof. induction a; simpl; auto. Qed.

Lemma firstn_app_exact {A} (a b : list A) : firstn (length a) (a ++ b) = a.
Proof. induction a; simpl; f_equal; auto. Qed.

Lemma slice_app {A} (a b c : list A) :
  slice (length a) (length a + length b) (a ++ b ++ c) = b.
Proof.
  unfold slice. rewrite skipn_app_exact.
  replace (length a + length b - length a) with (length b) by lia.
  apply firstn_app_exact.
Qed.

Lemma first_at_split (sub s : text) (i : nat) :
  first_at sub s i ->
  exists pre post, s = pre ++ sub ++ post /\ length pre = i.
Proof. intros [H _]. exact H. Qed.

Lemma token_iff (open close l tok : text) :
  token open close l = Some tok <-> token_between open close l tok.
Proof.
  unfold token, token_between, slice_from. split.
  - destruct (str_index open l) as [i|] eqn:Ei; [|discriminate].
    destruct (str_index close (skipn (i + length open) l)) as [j|] eqn:Ej;
      [|discriminate].
    intros [= <-].
    apply str_index_Some in Ei. destruct (first_at_split _ _ _ Ei) as (pre & r & -> & <-).
    replace (skipn (length pre + length open) (pre ++ open ++ r)) with r in *.
    2:{ rewrite app_assoc, <- length_app, skipn_app_exact. reflexivity. }
    apply str_index_Some in Ej.
    destruct (first_at_split _ _ _ Ej) as (tok & post & -> & <-).
    exists pre, post. split; [|split]; [| exact Ei |].
    + f_equal. rewrite <- length_app.
      rewrite (app_assoc pre open). rewrite slice_app. reflexivity.
    + rewrite <- length_app, (app_assoc pre open), slice_app. exact Ej.
  - intros (pre & post & -> & Ho & Hc).
    apply str_index_Some in Ho. rewrite Ho.
    rewrite <- length_app, (app_assoc pre open), skipn_app_exact.
    apply str_index_Some in Hc. rewrite Hc.
    rewrite slice_app. reflexivity.
Qed.

Lemma token_None_iff (open close l : text) :
  token open close l = None <-> missing open close l.
Proof.
  unfold token, missing, slice_from. split.
  - destruct (str_index open l) as [i|] eqn:Ei.
    + destruct (str_index close (skipn (i + length open) l)) as [j|] eqn:Ej;
        [discriminate|].
      intros _. right.
      apply str_index_Some in Ei. destruct (first_at_split _ _ _ Ei) as (pre & r & -> & <-).
      rewrite <- length_app, (app_assoc pre open), skipn_app_exact in Ej.
      exists pre, r. split; [reflexivity|]. split; [exact Ei|].
      apply str_index_None. exact Ej.
    + intros _. left. apply str_index_None. exact Ei.
  - intros [Ha | (pre & r & -> & Ho & Ha)].
    + apply str_index_None in Ha. rewrite Ha. reflexivity.
    + apply str_index_Some in Ho. rewrite Ho.
      rewrite <- length_app, (app_assoc pre open), skipn_app_exact.
      apply str_index_None in Ha. rewrite Ha. reflexivity.
Qed.

Lemma sample_of_iff (l : text) (t : sample) :
  sample_of l = Some t <-> data_line l t.
Proof.
  unfold sample_of, data_line. split.
  - destruct (token BIN_OPEN BIN_CLOSE l) as [tb|] eqn:Eb; [|discriminate].
    destruct (py_int 10 tb) as [b|] eqn:Ib; [|discriminate].
    destruct (token REAL_OPEN SPACE l) as [tr|] eqn:Er; [|discriminate].
    destruct (py_int 16 tr) as [r|] eqn:Ir; [|discriminate].
    destruct (token IMAG_OPEN SPACE l) as [ti|] eqn:Ei; [|discriminate].
    destruct (py_int 16 ti) as [i|] eqn:Ii; [|discriminate].
    intros [= <-]. exists tb, tr, ti.
    rewrite <- !token_iff. auto 10.
  - intros (tb & tr & ti & Hb & Ib & Hr & Ir & Hi & Ii).
    apply token_iff in Hb, Hr, Hi. rewrite Hb, Ib, Hr, Ir, Hi, Ii.
    destruct t as [[b r] i]. reflexivity.
Qed.

Lemma data_line_functional (l : text) (t t' : sample) :
  data_line l t -> data_line l t' -> t = t'.
Proof. rewrite <- !sample_of_iff. congruence. Qed.

Lemma lacks_token_sample_of (l : text) : lacks_token l -> sample_of l = None.
Proof.
  unfold lacks_token, sample_of. rewrite <- !token_None_iff.
  intros [H | [H | H]].
  - rewrite H. reflexivity.
  - rewrite H. destruct (token BIN_OPEN BIN_CLOSE l); [|reflexivity].
    destruct (py_int 10 t); reflexivity.
  - rewrite H. destruct (token BIN_OPEN BIN_CLOSE l); [|reflexivity].
    destruct (py_int 10 t); [|reflexivity].
    destruct (token REAL_OPEN SPACE l); [|reflexivity].
    destruct (py_int 16 t0); reflexivity.
Qed.

(** ** The loop body *)

Lemma field_run (n : nat) (open close l : text) (s : state) :
  field n open close l s =
  match str_index open l with
  | None => (Raised (TokenNotFound n open), s)
  | Some i =>
      match str_index close (slice_from (i + length open) l) with
      | None => (Raised (TokenNotFound n close), s)
      | Some j => (Done (slice (i + length open) (i + length open + j) l), s)
      end
  end.
Proof.
  unfold field, bind, or_raise.
  destruct (str_index open l) as [i|]; [|reflexivity]. simpl.
  destruct (str_index close (slice_from (i + length open) l)); reflexivity.
Qed.

Lemma field_token (n : nat) (open close l : text) (s : state) :
  field n open close l s =
  match token open close l with
  | Some tok => (Done tok, s)
  | None => (Raised (match str_index open l with
                     | None => TokenNotFound n open
                     | Some _ => TokenNotFound n close
                     end), s)
  end.
Proof.
  rewrite field_run. unfold token.
  destruct (str_index open l) as [i|]; [|reflexivity].
  destruct (str_index close (slice_from (i + length open) l)); reflexivity.
Qed.

Lemma body_Done (n : nat) (l : text) (t : sample) (s : state) :
  sample_of l = Some t -> body n l s = (Done tt, push s l t).
Proof.
  unfold sample_of, body, bind, int_of, or_raise, emit. simpl.
  rewrite field_token.
  destruct (token BIN_OPEN BIN_CLOSE l) as [tb|]; [|discriminate].
  destruct (py_int 10 tb) as [b|]; [|discriminate]. simpl.
  rewrite field_token.
  destruct (token REAL_OPEN SPACE l) as [tr|]; [|discriminate].
  destruct (py_int 16 tr) as [r|]; [|discriminate]. simpl.
  rewrite field_token.
  destruct (token IMAG_OPEN SPACE l) as [ti|]; [|discriminate].
  destruct (py_int 16 ti) as [i|]; [|discriminate]. simpl.
  intros [= <-]. reflexivity.
Qed.

Lemma body_Raised (n : nat) (l : text) (s : state) :
  sample_of l = None ->
  exists e s', body n l s = (Raised e, s') /\
               classify e = FormatError /\ error_line e = Some n /\
               out s' = out s ++ [Print l].
Proof.
  unfold sample_of, body, bind, int_of, or_raise, emit. simpl.
  rewrite field_token.
  destruct (token BIN_OPEN BIN_CLOSE l) as [tb|].
  2:{ intros _. destruct (str_index BIN_OPEN l); eauto 10. }
  destruct (py_int 10 tb) as [b|]; simpl; [|eauto 10].
  rewrite field_token.
  destruct (token REAL_OPEN SPACE l) as [tr|].
  2:{ intros _. destruct (str_index REAL_OPEN l); eauto 10. }
  destruct (py_int 16 tr) as [r|]; simpl; [|eauto 10].
  rewrite field_token.
  destruct (token IMAG_OPEN SPACE l) as [ti|].
  2:{ intros _. destruct (str_index IMAG_OPEN l); eauto 10. }
  destruct (py_int 16 ti) as [i|]; simpl; [discriminate|eauto 10].
Qed.

(** ** The loop *)

Lemma push_all_nil (s : state) : push_all s [] [] = s.
Proof. destruct s; unfold push_all; simpl. rewrite !app_nil_r. reflexivity. Qed.

Lemma push_all_cons (s : state) (l : text) (t : sample) block ts :
  push_all (push s l t) block ts = push_all s (l :: block) (t :: ts).
Proof. unfold push_all, push; simpl. rewrite <- !app_assoc. reflexivity. Qed.

Lemma for_each_Done (block : list text) (ts : list sample) :
  Forall2 (fun l t => sample_of l = Some t) block ts ->
  forall n s, for_each n block s = (Done tt, push_all s block ts).
Proof.
  induction 1 as [|l t block ts Hl _ IH]; intros n s; simpl.
  - rewrite push_all_nil. reflexivity.
  - unfold bind. rewrite (body_Done n l t s Hl), IH, push_all_cons. reflexivity.
Qed.

Lemma for_each_Raised (good : list text) (bad : text) (rest : list text) :
  Forall (fun l => sample_of l <> None) good ->
  sample_of bad = None ->
  forall n s, exists e s',
    for_each n (good ++ bad :: rest) s = (Raised e, s') /\
    classify e = FormatError /\ error_line e = Some (n + length good) /\
    out s' = out s ++ map Print (good ++ [bad]).
Proof.
  intros Hg Hb. induction Hg as [|l good Hl _ IH]; intros n s; simpl.
  - destruct (body_Raised n bad s Hb) as (e & s' & E & Hc & Hn & Ho).
    exists e, s'. unfold bind. rewrite E, Nat.add_0_r. auto.
  - destruct (sample_of l) as [t|] eqn:El; [|congruence].
    unfold bind. rewrite (body_Done n l t s El).
    destruct (IH (S n) (push s l t)) as (e & s' & E & Hc & Hn & Ho).
    exists e, s'. rewrite E, Hn, Ho. simpl. rewrite <- app_assoc.
    split; [reflexivity|]. split; [assumption|]. split; [f_equal; lia | reflexivity].
Qed.

(** A block either parses line by line or has a first line that does not. *)
Lemma block_cases (block : list text) :
  (exists ts, Forall2 (fun l t => sample_of l = Some t) block ts) \/
  (exists good bad rest, block = good ++ bad :: rest /\
     Forall (fun l => sample_of l <> None) good /\ sample_of bad = None).
Proof.
  induction block as [|l block IH].
  - left. exists []. constructor.
  - destruct (sample_of l) as [t|] eqn:El.
    + destruct IH as [[ts H] | (good & bad & rest & -> & Hg & Hb)].
      * left. exists (t :: ts). constructor; assumption.
      * right. exists (l :: good), bad, rest. repeat split; auto.
        constructor; [congruence | assumption].
    + right. exists [], l, block. repeat split; auto.
Qed.

(** ** The two searches over the lines *)

Lemma list_index_first (x : text) (pre post : list text) :
  ~ In x pre -> list_index x (pre ++ x :: post) = Some (length pre).
Proof.
  induction pre as [|y pre IH]; simpl; intros H.
  - rewrite text_eqb_refl. reflexivity.
  - destruct (text_eqb y x) eqn:E.
    + apply text_eqb_eq in E. tauto.
    + rewrite IH by tauto. reflexivity.
Qed.

Lemma list_index_None (x : text) (ls : list text) :
  list_index x ls = None <-> ~ In x ls.
Proof.
  induction ls as [|y ls IH]; simpl.
  - tauto.
  - destruct (text_eqb y x) eqn:E.
    + apply text_eqb_eq in E. split; [discriminate | tauto].
    + apply text_eqb_neq in E.
      destruct (list_index x ls); simpl.
      * split; [discriminate|]. intros H. exfalso. apply H. right.
        destruct (In_dec (list_eq_dec ascii_dec) x ls) as [|Hn]; [assumption|].
        apply IH in Hn. discriminate.
      * split; [|reflexivity]. intros _ [H|H]; [congruence|].
        apply (proj1 IH eq_refl H).
Qed.

Lemma list_index_Some (x : text) (ls : list text) (i : nat) :
  list_index x ls = Some i <->
  exists pre post, ls = pre ++ x :: post /\ length pre = i /\ ~ In x pre.
Proof.
  split.
  - revert i; induction ls as [|y ls IH]; simpl; intros i; [discriminate|].
    destruct (text_eqb y x) eqn:E.
    + apply text_eqb_eq in E. subst y. intros [= <-]. exists [], ls. auto.
    + apply text_eqb_neq in E.
      destruct (list_index x ls) as [k|]; [|discriminate].
      intros [= <-]. destruct (IH k eq_refl) as (pre & post & -> & <- & Hn).
      exists (y :: pre), post. simpl. intuition congruence.
  - intros (pre & post & -> & <- & Hn). apply list_index_first. exact Hn.
Qed.

(** ** The whole run *)

Lemma main_block (pre block post : list text) (s : state) :
  ~ In HEADER pre -> ~ In BLANK block ->
  main (pre ++ HEADER :: block ++ BLANK :: post) s =
  (for_each 0 block ;;; plot_all) s.
Proof.
  intros Hh Hb. unfold main, bind at 1, or_raise.
  rewrite (list_index_first _ _ _ Hh). simpl.
  unfold bind at 1, slice_from.
  replace (length pre + 1) with (length (pre ++ [HEADER]))
    by (rewrite length_app; reflexivity).
  replace (pre ++ HEADER :: block ++ BLANK :: post)
    with ((pre ++ [HEADER]) ++ block ++ BLANK :: post)
    by (rewrite <- app_assoc; reflexivity).
  rewrite skipn_app_exact, (list_index_first _ _ _ Hb). simpl.
  rewrite slice_app. reflexivity.
Qed.

Lemma main_no_header (lines : list text) (s : state) :
  ~ In HEADER lines -> main lines s = (Raised HeaderNotFound, s).
Proof.
  intros H. apply list_index_None in H. unfold main, bind, or_raise.
  rewrite H. reflexivity.
Qed.

Lemma main_no_blank (pre rest : list text) (s : state) :
  ~ In HEADER pre -> ~ In BLANK rest ->
  main (pre ++ HEADER :: rest) s = (Raised BlankNotFound, s).
Proof.
  intros Hh Hb. unfold main, bind at 1, or_raise.
  rewrite (list_index_first _ _ _ Hh). simpl.
  unfold bind, slice_from.
  replace (length pre + 1) with (length (pre ++ [HEADER]))
    by (rewrite length_app; reflexivity).
  replace (pre ++ HEADER :: rest) with ((pre ++ [HEADER]) ++ rest)
    by (rewrite <- app_assoc; reflexivity).
  rewrite skipn_app_exact. apply list_index_None in Hb. rewrite Hb. reflexivity.
Qed.

(** Every run is one of three: no header, no blank line after it, or a
    block between them. *)
Lemma lines_cases (lines : list text) :
  ~ In HEADER lines \/
  (exists pre rest, lines = pre ++ HEADER :: rest /\ ~ In HEADER pre /\
                    ~ In BLANK rest) \/
  (exists pre block post, lines = pre ++ HEADER :: block ++ BLANK :: post /\
                          ~ In HEADER pre /\ ~ In BLANK block).
Proof.
  destruct (list_index HEADER lines) as [h|] eqn:Eh.
  - right. apply list_index_Some in Eh as (pre & rest & -> & _ & Hh).
    destruct (list_index BLANK rest) as [k|] eqn:Ek.
    + right. apply list_index_Some in Ek as (block & post & -> & _ & Hb).
      exists pre, block, post. auto.
    + left. apply list_index_None in Ek. exists pre, rest. auto.
  - left. apply list_index_None. exact Eh.
Qed.

Lemma plot_all_run (s : state) :
  plot_all s =
  (Done tt, mkState (out s ++ chart_of (bins s) (real s) (imag s))
                    (bins s) (real s) (imag s)).
Proof.
  unfold plot_all, bind, get, emit, chart_of. simpl.
  rewrite <- !app_assoc. reflexivity.
Qed.

Lemma run_block_Done (pre block post : list text) (ts : list sample) :
  ~ In HEADER pre -> ~ In BLANK block ->
  Forall2 (fun l t => sample_of l = Some t) block ts ->
  run (pre ++ HEADER :: block ++ BLANK :: post) =
  (Done tt,
   mkState (map Print block ++
            chart_of (map bin_of ts) (map real_of ts) (map imag_of ts))
           (map bin_of ts) (map real_of ts) (map imag_of ts)).
Proof.
  intros Hh Hb Hs. unfold run. rewrite main_block by assumption.
  unfold bind. rewrite (for_each_Done _ _ Hs), plot_all_run. reflexivity.
Qed.

Lemma run_block_Raised (pre good : list text) (bad : text) (rest post : list text) :
  ~ In HEADER pre -> ~ In BLANK (good ++ bad :: rest) ->
  Forall (fun l => sample_of l <> None) good -> sample_of bad = None ->
  exists e st,
    run (pre ++ HEADER :: (good ++ bad :: rest) ++ BLANK :: post) = (Raised e, st) /\
    classify e = FormatError /\ error_line e = Some (length good) /\
    out st = map Print (good ++ [bad]).
Proof.
  intros Hh Hb Hg Hbad. unfold run. rewrite main_block by assumption.
  destruct (for_each_Raised good bad rest Hg Hbad 0 initial)
    as (e & st & E & Hc & Hn & Ho).
  exists e, st. unfold bind. rewrite E. auto.
Qed.

Lemma data_line_not_blank (l : text) (t : sample) : data_line l t -> l <> BLANK.
Proof.
  intros (tb & _ & _ & (pre & post & -> & _) & _) E.
  apply (f_equal (@length ascii)) in E. rewrite !length_app in E.
  simpl in E. lia.
Qed.

Lemma count_occ_one_first (x : text) (pre rest : list text) :
  count_occ text_eq_dec (pre ++ x :: rest) x = 1 -> ~ In x pre.
Proof.
  rewrite count_occ_app, count_occ_cons_eq by reflexivity.
  intros H. apply (count_occ_not_In text_eq_dec). lia.
Qed.

Lemma Forall2_sample_of (block : list text) (ts : list sample) :
  Forall2 data_line block ts ->
  Forall2 (fun l t => sample_of l = Some t) block ts.
Proof.
  induction 1; constructor; auto. apply sample_of_iff. assumption.
Qed.

Lemma no_chart_in_echo (block : list text) (ev : event) :
  In ev (map Print block) -> is_chart ev = false.
Proof. rewrite in_map_iff. intros (l & <- & _). reflexivity. Qed.

Lemma first_failure (block : list text) (i : nat) (l : text) :
  nth_error block i = Some l -> sample_of l = None ->
  exists good bad rest,
    block = good ++ bad :: rest /\
    Forall (fun l' => sample_of l' <> None) good /\ sample_of bad = None /\
    length good <= i /\
    (Forall (fun l' => sample_of l' <> None) (firstn i block) -> length good = i).
Proof.
  revert i; induction block as [|x block IH]; intros [|i]; simpl; try discriminate.
  - intros [= ->] Hl. exists [], l, block. simpl. auto.
  - intros Hi Hl. destruct (sample_of x) eqn:Ex.
    + destruct (IH i Hi Hl) as (good & bad & rest & -> & Hg & Hb & Hle & Heq).
      exists (x :: good), bad, rest. simpl. repeat split; auto.
      * constructor; [congruence | exact Hg].
      * lia.
      * intros HF. inversion HF; subst. f_equal. auto.
    + exists [], x, block. simpl. repeat split; auto.
      * lia.
      * intros HF. inversion HF; subst. congruence.
Qed.

Lemma Forall2_data_line (block : list text) (ts : list sample) :
  Forall2 (fun l t => sample_of l = Some t) block ts ->
  Forall2 data_line block ts.
Proof.
  induction 1; constructor; auto. apply sample_of_iff. assumption.
Qed.

(** The trace of a run holds chart events only when the run went through
    the whole block. *)
Lemma chart_only_after_block (lines : list text) (o : outcome unit) (st : state) :
  run lines = (o, st) ->
  (exists ev, In ev (out st) /\ is_chart ev = true) ->
  o = Done tt /\
  exists pre block post ts,
    lines = pre ++ HEADER :: block ++ BLANK :: post /\
    ~ In HEADER pre /\ ~ In BLANK block /\ Forall2 data_line block ts.
Proof.
  intros Hrun (ev & Hin & Hc).
  destruct (lines_cases lines)
    as [Hn | [(pre & rest & -> & Hh & Hb) | (pre & block & post & -> & Hh & Hb)]].
  - unfold run in Hrun. rewrite main_no_header in Hrun by assumption.
    injection Hrun as <- <-. elim Hin.
  - unfold run in Hrun. rewrite main_no_blank in Hrun by assumption.
    injection Hrun as <- <-. elim Hin.
  - destruct (block_cases block) as [[ts Hts] | (good & bad & rest & -> & Hg & Hbad)].
    + rewrite (run_block_Done pre block post ts Hh Hb Hts) in Hrun.
      injection Hrun as <- <-. split; [reflexivity|].
      exists pre, block, post, ts. auto using Forall2_data_line.
    + destruct (run_block_Raised pre good bad rest post Hh Hb Hg Hbad)
        as (e & st' & E & _ & _ & Ho).
      rewrite E in Hrun. injection Hrun as <- <-. rewrite Ho in Hin.
      apply no_chart_in_echo in Hin. congruence.
Qed.

(** ** What the loop keeps true *)

Lemma body_aligned (n : nat) (l : text) (s s' : state) (k : nat) :
  body n l s = (Done tt, s') -> aligned k s -> aligned (S k) s'.
Proof.
  intros Hrun (Hb & Hr & Hi). destruct (sample_of l) as [t|] eqn:E.
  - rewrite (body_Done n l t s E) in Hrun. injection Hrun as <-.
    unfold aligned, push; simpl. rewrite !length_app; simpl. lia.
  - destruct (body_Raised n l s E) as (e & s1 & E1 & _). congruence.
Qed.

Lemma body_echo_only (n : nat) (l : text) (s s' : state) (o : outcome unit) :
  body n l s = (o, s') -> echo_only s -> echo_only s'.
Proof.
  intros Hrun He ev. destruct (sample_of l) as [t|] eqn:E.
  - rewrite (body_Done n l t s E) in Hrun. injection Hrun as <- <-.
    simpl. rewrite in_app_iff. intros [H | [<- | []]]; auto.
  - destruct (body_Raised n l s E) as (e & s1 & E1 & _ & _ & Ho).
    rewrite E1 in Hrun. injection Hrun as <- <-.
    rewrite Ho, in_app_iff. intros [H | [<- | []]]; auto.
Qed.

Lemma for_each_aligned (block : list text) :
  forall n s s' k,
    for_each n block s = (Done tt, s') -> aligned k s ->
    aligned (k + length block) s'.
Proof.
  induction block as [|l block IH]; simpl; intros n s s' k Hrun Ha.
  - injection Hrun as <-. rewrite Nat.add_0_r. exact Ha.
  - unfold bind in Hrun. destruct (body n l s) as [[[]|e] s1] eqn:E; [|discriminate].
    replace (k + S (length block)) with (S k + length block) by lia.
    eapply IH; [exact Hrun|]. eapply body_aligned; eassumption.
Qed.

Lemma for_each_echo_only (block : list text) :
  forall n s s' o,
    for_each n block s = (o, s') -> echo_only s -> echo_only s'.
Proof.
  induction block as [|l block IH]; simpl; intros n s s' o Hrun He.
  - injection Hrun as <- <-. exact He.
  - unfold bind in Hrun. destruct (body n l s) as [[[]|e] s1] eqn:E.
    + eapply IH; [exact Hrun|]. eapply body_echo_only; eassumption.
    + injection Hrun as <- <-. eapply body_echo_only; eassumption.
Qed.

(** ** [int] *)

Lemma space_not_digit (c : ascii) : Py_ISSPACE c = true -> digit_value c = None.
Proof. destruct c as [[] [] [] [] [] [] [] []]; vm_compute; congruence. Qed.

Lemma underscore_not_digit (c : ascii) :
  is_underscore c = true -> digit_value c = None.
Proof. destruct c as [[] [] [] [] [] [] [] []]; vm_compute; congruence. Qed.

Lemma digit_value_range (c : ascii) (d : Z) :
  digit_value c = Some d -> (0 <= d < 36)%Z.
Proof.
  destruct c as [[] [] [] [] [] [] [] []]; vm_compute;
    intros [= <-]; split; congruence.
Qed.

Lemma digits_below_cons (base : Z) (c : ascii) (s : text) :
  digits_below base (c :: s) =
  match digit_value c with
  | Some d => if (d <? base)%Z then d :: digits_below base s
              else digits_below base s
  | None => digits_below base s
  end.
Proof.
  unfold digits_below; simpl.
  destruct (digit_value c) as [d|]; [|reflexivity].
  destruct (d <? base)%Z; reflexivity.
Qed.

Lemma digits_below_lstrip (base : Z) (s : text) :
  digits_below base (lstrip s) = digits_below base s.
Proof.
  induction s as [|c s IH]; cbn [lstrip]; [reflexivity|].
  destruct (Py_ISSPACE c) eqn:E; [|reflexivity].
  rewrite (digits_below_cons base c s), (space_not_digit c E). exact IH.
Qed.

Lemma digits_below_blank (base : Z) (s : text) :
  lstrip s = [] -> digits_below base s = [].
Proof. intros H. rewrite <- digits_below_lstrip, H. reflexivity. Qed.

Lemma radix_value_nonneg (base : Z) (ds : list Z) :
  (0 <= base)%Z -> Forall (fun d => 0 <= d < base)%Z ds ->
  (0 <= radix_value base ds)%Z.
Proof.
  intros Hb. induction 1 as [|d ds Hd _ IH]; simpl; [lia|].
  assert (0 <= base ^ Z.of_nat (length ds))%Z by (apply Z.pow_nonneg; lia).
  nia.
Qed.

Lemma radix_value_bound (base : Z) (ds : list Z) :
  (0 <= base)%Z -> Forall (fun d => 0 <= d < base)%Z ds ->
  (radix_value base ds < base ^ Z.of_nat (length ds))%Z.
Proof.
  intros Hb. induction 1 as [|d ds Hd _ IH]; simpl length; simpl radix_value; [simpl; lia|].
  rewrite Nat2Z.inj_succ, Z.pow_succ_r by lia.
  assert (0 <= base ^ Z.of_nat (length ds))%Z by (apply Z.pow_nonneg; lia).
  nia.
Qed.

Lemma digits_below_range (base : Z) (s : text) :
  Forall (fun d => 0 <= d < base)%Z (digits_below base s).
Proof.
  induction s as [|c s IH]; [constructor|].
  rewrite digits_below_cons. destruct (digit_value c) as [d|] eqn:E; [|exact IH].
  destruct (d <? base)%Z eqn:Ed; [|exact IH].
  constructor; [|exact IH]. apply digit_value_range in E. lia.
Qed.

(** What the digit loop returns: the digits it went over, joined to the
    value it started from. *)
Lemma scan_digits_spec (base : Z) (s : text) :
  forall prev_us acc n v n' rest,
    scan_digits base prev_us acc n s = Some (v, n', rest) ->
    exists ds,
      digits_below base s = ds ++ digits_below base rest /\
      v = (acc * base ^ Z.of_nat (length ds) + radix_value base ds)%Z /\
      n' = n + length ds.
Proof.
  induction s as [|c s IH]; intros p acc n v n' rest; cbn [scan_digits].
  - destruct p; [discriminate|]. intros [= <- <- <-].
    exists []. simpl. split; [reflexivity|]. split; lia.
  - assert (forall q : bool, (if q then None else Some (acc, n, c :: s)) = Some (v, n', rest) ->
              exists ds, digits_below base (c :: s) = ds ++ digits_below base rest /\
                v = (acc * base ^ Z.of_nat (length ds) + radix_value base ds)%Z /\
                n' = n + length ds) as Hstop.
    { intros [|]; [discriminate|]. intros [= <- <- <-].
      exists []. simpl. split; [reflexivity|]. split; lia. }
    destruct (is_underscore c) eqn:Eu.
    + destruct p; [discriminate|]. intros H.
      destruct (IH _ _ _ _ _ _ H) as (ds & Hd & Hv & Hn).
      exists ds. rewrite digits_below_cons, (underscore_not_digit c Eu). auto.
    + destruct (digit_value c) as [d|] eqn:Ed; [|apply Hstop].
      destruct (d <? base)%Z eqn:Eb; [|apply Hstop].
      intros H. destruct (IH _ _ _ _ _ _ H) as (ds & Hd & Hv & Hn).
      exists (d :: ds). rewrite digits_below_cons, Ed, Eb, Hd.
      split; [reflexivity|]. simpl length. simpl radix_value.
      rewrite Nat2Z.inj_succ, Z.pow_succ_r by lia. split; [lia | lia].
Qed.

Lemma prefix_letter_not_digit (base : Z) (c : ascii) :
  prefix_letter base c = true ->
  match digit_value c with
  | Some d => (d <? base)%Z = false
  | None => True
  end.
Proof.
  unfold prefix_letter.
  destruct (base =? 16)%Z eqn:E16; [apply Z.eqb_eq in E16; subst base|].
  { rewrite orb_true_iff, !Ascii.eqb_eq. intros [-> | ->]; reflexivity. }
  destruct (base =? 8)%Z eqn:E8; [apply Z.eqb_eq in E8; subst base|].
  { rewrite orb_true_iff, !Ascii.eqb_eq. intros [-> | ->]; reflexivity. }
  destruct (base =? 2)%Z eqn:E2; [apply Z.eqb_eq in E2; subst base|discriminate].
  rewrite orb_true_iff, !Ascii.eqb_eq. intros [-> | ->]; reflexivity.
Qed.

Lemma radix_value_leading_zero (base : Z) (ds : list Z) :
  radix_value base (0%Z :: ds) = radix_value base ds.
Proof. simpl. lia. Qed.

Lemma skip_prefix_value (base : Z) (s : text) :
  radix_value base (digits_below base (skip_prefix base s)) =
  radix_value base (digits_below base s).
Proof.
  destruct s as [|c0 [|c s']]; try reflexivity. unfold skip_prefix.
  destruct (Ascii.eqb c0 "0" && prefix_letter base c) eqn:E; [|reflexivity].
  apply andb_true_iff in E as [E0 Ep]. apply Ascii.eqb_eq in E0. subst c0.
  apply prefix_letter_not_digit in Ep.
  rewrite (digits_below_cons base "0"), (digits_below_cons base c).
  assert (digits_below base
            match s' with
            | [] => []
            | u :: s'' => if is_underscore u then s'' else s'
            end = digits_below base s') as ->.
  { destruct s' as [|u s'']; [reflexivity|].
    destruct (is_underscore u) eqn:Eu; [|reflexivity].
    rewrite (digits_below_cons base u), (underscore_not_digit u Eu). reflexivity. }
  assert (match digit_value c with
          | Some d => if (d <? base)%Z then d :: digits_below base s'
                      else digits_below base s'
          | None => digits_below base s'
          end = digits_below base s') as ->.
  { destruct (digit_value c) as [d|]; [rewrite Ep|]; reflexivity. }
  change (digit_value "0") with (Some 0%Z). cbv iota.
  destruct (0 <? base)%Z; [rewrite radix_value_leading_zero|]; reflexivity.
Qed.

Lemma split_sign_digits (base : Z) (s : text) :
  digits_below base (snd (split_sign s)) = digits_below base s.
Proof.
  destruct s as [|c s]; [reflexivity|].
  unfold split_sign.
  destruct (Ascii.eqb c "+") eqn:Ep.
  { apply Ascii.eqb_eq in Ep; subst c. reflexivity. }
  destruct (Ascii.eqb c "-") eqn:Em; [|reflexivity].
  apply Ascii.eqb_eq in Em; subst c. reflexivity.
Qed.

Lemma split_sign_minus (s : text) : fst (split_sign (lstrip s)) = leading_minus s.
Proof.
  unfold leading_minus, split_sign. destruct (lstrip s) as [|c r]; [reflexivity|].
  destruct (Ascii.eqb c "+") eqn:Ep.
  { apply Ascii.eqb_eq in Ep; subst c. reflexivity. }
  destruct (Ascii.eqb c "-"); reflexivity.
Qed.

(** What [int] returns on the text it accepts: the digits [ds] it read
    give the magnitude, a leading minus sign the sign. *)
Lemma py_int_inv (base : Z) (s : text) (v : Z) :
  py_int base s = Some v ->
  exists ds,
    ds <> [] /\ Forall (fun d => 0 <= d < base)%Z ds /\
    within_limit base (length ds) = true /\
    radix_value base (digits_below base s) = radix_value base ds /\
    v = (if leading_minus s then - radix_value base ds else radix_value base ds)%Z.
Proof.
  unfold py_int. rewrite <- split_sign_minus.
  pose proof (split_sign_digits base (lstrip s)) as Hsign.
  destruct (split_sign (lstrip s)) as [neg s2]. simpl in Hsign. simpl fst.
  destruct (leading_underscore (skip_prefix base s2)); [discriminate|].
  destruct (scan_digits base false 0 0 (skip_prefix base s2))
    as [[[m n] rest]|] eqn:Escan; [|discriminate].
  destruct (n =? 0)%nat eqn:En; [discriminate|]. apply Nat.eqb_neq in En.
  destruct (within_limit base n) eqn:El; [|discriminate]. simpl.
  destruct (lstrip rest) eqn:Er; [|discriminate]. intros [= <-].
  apply scan_digits_spec in Escan as (ds & Hd & Hv & Hn). simpl in Hn, Hv.
  rewrite (digits_below_blank base rest Er), app_nil_r in Hd.
  exists ds. subst n m.
  split; [intros ->; apply En; reflexivity|].
  split; [rewrite <- Hd; apply digits_below_range|].
  split; [exact El|].
  split; [|reflexivity].
  rewrite <- Hd, skip_prefix_value, Hsign, digits_below_lstrip. reflexivity.
Qed.

Lemma py_int_value (base : Z) (s : text) (v : Z) :
  py_int base s = Some v ->
  v = (if leading_minus s then - radix_value base (digits_below base s)
       else radix_value base (digits_below base s))%Z.
Proof.
  intros H. apply py_int_inv in H as (ds & _ & _ & _ & -> & ->). reflexivity.
Qed.

Lemma py_int_unsigned (base : Z) (s : text) (v : Z) :
  (0 <= base)%Z -> py_int base s = Some v -> leading_minus s = false ->
  (0 <= v)%Z.
Proof.
  intros Hb H Hm. rewrite (py_int_value _ _ _ H), Hm.
  apply radix_value_nonneg; [assumption | apply digits_below_range].
Qed.

(** ** The numerals of the printer *)

Lemma digit_char_cases (d : Z) :
  (0 <= d < 16)%Z ->
  (d = 0 \/ d = 1 \/ d = 2 \/ d = 3 \/ d = 4 \/ d = 5 \/ d = 6 \/ d = 7 \/
   d = 8 \/ d = 9 \/ d = 10 \/ d = 11 \/ d = 12 \/ d = 13 \/ d = 14 \/ d = 15)%Z.
Proof. lia. Qed.

Lemma digit_char_upper (d : Z) :
  (0 <= d < 16)%Z -> upper_hex_char (digit_char d) = true.
Proof.
  intros H. apply digit_char_cases in H.
  repeat (destruct H as [-> | H]; [reflexivity|]). subst d. reflexivity.
Qed.

Lemma digit_char_value (d : Z) :
  (0 <= d < 16)%Z -> digit_value (digit_char d) = Some d.
Proof.
  intros H. apply digit_char_cases in H.
  repeat (destruct H as [-> | H]; [reflexivity|]). subst d. reflexivity.
Qed.

Lemma upper_hex_char_inv (c : ascii) :
  upper_hex_char c = true ->
  exists d, (0 <= d < 16)%Z /\ digit_value c = Some d /\
            is_underscore c = false /\ Py_ISSPACE c = false /\
            Ascii.eqb c "+" = false /\ Ascii.eqb c "-" = false.
Proof.
  destruct c as [[] [] [] [] [] [] [] []]; vm_compute; try discriminate;
    intros _; eexists; (split; [split|]; [| | repeat split]); congruence.
Qed.

Lemma digits_fuel_upper (fuel : nat) (base n : Z) :
  (2 <= base <= 16)%Z -> (0 <= n)%Z ->
  Forall (fun c => upper_hex_char c = true) (digits_fuel fuel base n).
Proof.
  intros Hb. revert n. induction fuel as [|fuel IH]; intros n Hn; simpl.
  - constructor.
  - destruct (n <? base)%Z eqn:E.
    + apply Z.ltb_lt in E. constructor; [|constructor].
      apply digit_char_upper. lia.
    + apply Forall_app. split.
      * apply IH. apply Z.div_pos; lia.
      * constructor; [|constructor]. apply digit_char_upper.
        pose proof (Z.mod_pos_bound n base). lia.
Qed.

(** The digit loop over the digits the printer wrote. *)
Lemma scan_digits_fuel (base : Z) (fuel : nat) :
  (2 <= base <= 16)%Z ->
  forall n acc k rest,
    (0 <= n < base ^ Z.of_nat fuel)%Z ->
    scan_digits base false acc k (digits_fuel fuel base n ++ rest) =
    scan_digits base false
      (acc * base ^ Z.of_nat (length (digits_fuel fuel base n)) + n)%Z
      (k + length (digits_fuel fuel base n)) rest.
Proof.
  intros Hb. induction fuel as [|fuel IH]; intros n acc k rest Hn.
  - simpl in *. replace n with 0%Z by lia. f_equal; lia.
  - cbn [digits_fuel]. destruct (n <? base)%Z eqn:E.
    + apply Z.ltb_lt in E. cbn [app length scan_digits].
      destruct (upper_hex_char_inv _ (digit_char_upper n ltac:(lia)))
        as (d & _ & _ & -> & _).
      rewrite digit_char_value by lia.
      replace (n <? base)%Z with true by (symmetry; apply Z.ltb_lt; lia).
      f_equal; [|lia]. change (Z.of_nat 1) with 1%Z. lia.
    + apply Z.ltb_ge in E. rewrite <- app_assoc. cbn [app].
      rewrite Nat2Z.inj_succ, Z.pow_succ_r in Hn by lia.
      assert (0 <= n / base < base ^ Z.of_nat fuel)%Z as Hq.
      { split; [apply Z.div_pos; lia|]. apply Z.div_lt_upper_bound; lia. }
      rewrite (IH _ acc k _ Hq). cbn [scan_digits].
      pose proof (Z.mod_pos_bound n base ltac:(lia)) as Hm.
      destruct (upper_hex_char_inv _ (digit_char_upper (n mod base) ltac:(lia)))
        as (d & _ & _ & -> & _).
      rewrite digit_char_value by lia.
      replace (n mod base <? base)%Z with true by (symmetry; apply Z.ltb_lt; lia).
      rewrite length_app. cbn [length].
      f_equal; [|lia].
      rewrite Nat2Z.inj_add. change (Z.of_nat 1) with 1%Z.
      rewrite Z.pow_add_r, Z.pow_1_r by lia.
      pose proof (Z.div_mod n base ltac:(lia)). nia.
Qed.

Lemma digits_fuel_S (fuel : nat) (base n : Z) :
  digits_fuel (S fuel) base n =
  if (n <? base)%Z then [digit_char n]
  else digits_fuel fuel base (n / base)%Z ++ [digit_char (n mod base)%Z].
Proof. reflexivity. Qed.

(** The printer writes at least one digit and no leading zero. *)
Lemma digits_fuel_length (base : Z) (fuel : nat) :
  (2 <= base)%Z ->
  forall n, (0 <= n < base ^ Z.of_nat (S fuel))%Z ->
    let len := length (digits_fuel (S fuel) base n) in
    1 <= len /\ (len = 1 \/ (base ^ (Z.of_nat len - 1) <= n)%Z).
Proof.
  intros Hb. induction fuel as [|fuel IH]; intros n Hn.
  - change (Z.of_nat 1) with 1%Z in Hn. rewrite Z.pow_1_r in Hn.
    cbn [digits_fuel]. replace (n <? base)%Z with true
      by (symmetry; apply Z.ltb_lt; lia). simpl. auto.
  - rewrite (digits_fuel_S (S fuel)).
    destruct (n <? base)%Z eqn:E; [simpl; auto|]. apply Z.ltb_ge in E.
    rewrite Nat2Z.inj_succ, Z.pow_succ_r in Hn by lia.
    assert (0 <= n / base < base ^ Z.of_nat (S fuel))%Z as Hq.
    { split; [apply Z.div_pos; lia|]. apply Z.div_lt_upper_bound; lia. }
    destruct (IH _ Hq) as [H1 H2]. cbv zeta in *.
    rewrite length_app. cbn [length].
    set (len := length (digits_fuel (S fuel) base (n / base))) in *.
    split; [lia|]. right.
    replace (Z.of_nat (len + 1) - 1)%Z with (Z.succ (Z.of_nat len - 1)) by lia.
    rewrite Z.pow_succ_r by lia.
    pose proof (Z.div_mod n base ltac:(lia)).
    pose proof (Z.mod_pos_bound n base ltac:(lia)).
    destruct H2 as [-> | H2].
    + change (Z.of_nat 1 - 1)%Z with 0%Z. rewrite Z.pow_0_r. lia.
    + nia.
Qed.

Lemma digits_enough_fuel (base n : Z) :
  (2 <= base)%Z -> (0 <= n)%Z ->
  (0 <= n < base ^ Z.of_nat (S (Z.to_nat (Z.log2 n))))%Z.
Proof.
  intros Hb Hn. split; [assumption|].
  rewrite Nat2Z.inj_succ, Z2Nat.id by apply Z.log2_nonneg.
  destruct (Z.eq_dec n 0) as [-> | Hz].
  - simpl. lia.
  - apply Z.lt_le_trans with (2 ^ Z.succ (Z.log2 n))%Z.
    + apply Z.log2_spec. lia.
    + apply Z.pow_le_mono_l. lia.
Qed.

Lemma py_int_run (base : Z) (s s2 : text) (neg : bool) (v : Z) (n : nat) :
  split_sign (lstrip s) = (neg, s2) ->
  leading_underscore (skip_prefix base s2) = false ->
  scan_digits base false 0 0 (skip_prefix base s2) = Some (v, n, []) ->
  n <> 0 -> within_limit base n = true ->
  py_int base s = Some (if neg then (- v)%Z else v).
Proof.
  intros Hs Hu Hscan Hn Hl. unfold py_int. rewrite Hs, Hu, Hscan.
  apply Nat.eqb_neq in Hn. rewrite Hn, Hl. reflexivity.
Qed.

Lemma digit_first_plain (s : text) :
  digit_first s ->
  lstrip s = s /\ split_sign s = (false, s) /\ leading_underscore s = false.
Proof.
  destruct s as [|c s]; [intros []|]. simpl. intros H.
  apply upper_hex_char_inv in H as (d & _ & _ & Hu & Hsp & Hp & Hm).
  rewrite Hsp, Hp, Hm, Hu. auto.
Qed.

Lemma digits_digit_first (base n : Z) :
  (2 <= base <= 16)%Z -> (0 <= n)%Z -> digit_first (digits base n).
Proof.
  intros Hb Hn. unfold digits.
  pose proof (digits_fuel_upper (S (Z.to_nat (Z.log2 n))) base n Hb Hn) as Hu.
  pose proof (digits_fuel_length base (Z.to_nat (Z.log2 n)) ltac:(lia) n
                (digits_enough_fuel base n ltac:(lia) Hn)) as [Hl _].
  destruct (digits_fuel (S (Z.to_nat (Z.log2 n))) base n) as [|c r].
  - simpl in Hl. lia.
  - inversion Hu; subst. assumption.
Qed.

Lemma scan_numeral (base n acc : Z) (k : nat) (rest : text) :
  (2 <= base <= 16)%Z -> (0 <= n)%Z ->
  scan_digits base false acc k (digits base n ++ rest) =
  scan_digits base false (acc * base ^ Z.of_nat (length (digits base n)) + n)%Z
              (k + length (digits base n)) rest.
Proof.
  intros Hb Hn. unfold digits. apply scan_digits_fuel; [assumption|].
  apply digits_enough_fuel; lia.
Qed.

Lemma scan_zeros (base acc : Z) (k z : nat) (rest : text) :
  (0 < base)%Z ->
  scan_digits base false acc k (repeat "0" z ++ rest) =
  scan_digits base false (acc * base ^ Z.of_nat z)%Z (k + z) rest.
Proof.
  intros Hb. revert acc k. induction z as [|z IH]; intros acc k.
  - simpl. f_equal; lia.
  - cbn [repeat app scan_digits].
    change (is_underscore "0") with false. change (digit_value "0") with (Some 0%Z).
    cbv iota. replace (0 <? base)%Z with true by (symmetry; apply Z.ltb_lt; lia).
    rewrite IH. rewrite Nat2Z.inj_succ, Z.pow_succ_r by lia. f_equal; lia.
Qed.

Lemma skip_prefix_10 (s : text) : skip_prefix 10 s = s.
Proof.
  destruct s as [|c0 [|c s]]; try reflexivity. unfold skip_prefix.
  change (prefix_letter 10 c) with false. rewrite andb_false_r. reflexivity.
Qed.

Lemma digits_length_pos (base n : Z) :
  (2 <= base <= 16)%Z -> (0 <= n)%Z -> length (digits base n) <> 0.
Proof.
  intros Hb Hn. pose proof (digits_digit_first base n Hb Hn) as H.
  destruct (digits base n); [elim H | discriminate].
Qed.

(** [int] reads back the decimal numeral of the printer. *)
Lemma py_int_dec_text (z : Z) : fits z -> py_int 10 (dec_text z) = Some z.
Proof.
  intros Hfit. unfold dec_text, sign_text.
  assert (2 <= 10 <= 16)%Z as Hb by lia.
  assert (0 <= Z.abs z)%Z as Hn by lia.
  pose proof (digits_digit_first 10 (Z.abs z) Hb Hn) as Hd.
  destruct (digit_first_plain _ Hd) as (Hstrip & Hsign & Hus).
  pose proof (scan_numeral 10 (Z.abs z) 0 0 [] Hb Hn) as Hscan.
  rewrite app_nil_r in Hscan. simpl in Hscan.
  destruct (z <? 0)%Z eqn:Ez.
  - apply Z.ltb_lt in Ez.
    rewrite (py_int_run 10 _ (digits 10 (Z.abs z)) true (Z.abs z)
               (length (digits 10 (Z.abs z)))).
    + f_equal. lia.
    + reflexivity.
    + rewrite skip_prefix_10. exact Hus.
    + rewrite skip_prefix_10. exact Hscan.
    + apply digits_length_pos; assumption.
    + exact Hfit.
  - apply Z.ltb_ge in Ez.
    rewrite (py_int_run 10 _ (digits 10 (Z.abs z)) false (Z.abs z)
               (length (digits 10 (Z.abs z)))).
    + f_equal. lia.
    + simpl app. rewrite Hstrip. exact Hsign.
    + rewrite skip_prefix_10. exact Hus.
    + rewrite skip_prefix_10. exact Hscan.
    + apply digits_length_pos; assumption.
    + exact Hfit.
Qed.

Lemma pad_cons (w : nat) (s : text) :
  digit_first s -> exists c r, pad w s = c :: r /\ is_underscore c = false.
Proof.
  unfold pad. intros H. destruct (w - length s) as [|k]; simpl.
  - destruct s as [|c r]; [elim H|]. exists c, r. split; [reflexivity|].
    apply upper_hex_char_inv in H as (d & _ & _ & Hu & _). exact Hu.
  - eexists _, _. split; reflexivity.
Qed.

(** [int] reads back the hexadecimal numeral of the printer. *)
Lemma py_int_hex_text (z : Z) : py_int 16 (hex_text z) = Some z.
Proof.
  unfold hex_text, sign_text.
  assert (2 <= 16 <= 16)%Z as Hb by lia.
  assert (0 <= Z.abs z)%Z as Hn by lia.
  pose proof (digits_digit_first 16 (Z.abs z) Hb Hn) as Hd.
  destruct (pad_cons 8 _ Hd) as (c & r & Hp & Hu).
  assert (skip_prefix 16 (txt "0x" ++ pad 8 (digits 16 (Z.abs z))) =
          pad 8 (digits 16 (Z.abs z))) as Hskip.
  { rewrite Hp. simpl. rewrite Hu. reflexivity. }
  assert (scan_digits 16 false 0 0 (pad 8 (digits 16 (Z.abs z))) =
          Some (Z.abs z, length (pad 8 (digits 16 (Z.abs z))), [])) as Hscan.
  { unfold pad. rewrite scan_zeros by lia.
    pose proof (scan_numeral 16 (Z.abs z)
                  (0 * 16 ^ Z.of_nat (8 - length (digits 16 (Z.abs z))))
                  (0 + (8 - length (digits 16 (Z.abs z)))) [] Hb Hn) as H.
    rewrite app_nil_r in H. rewrite H. cbn [scan_digits].
    rewrite length_app, repeat_length, !Z.mul_0_l. reflexivity. }
  assert (length (pad 8 (digits 16 (Z.abs z))) <> 0) as Hlen
    by (rewrite Hp; discriminate).
  set (p := pad 8 (digits 16 (Z.abs z))) in *.
  destruct (z <? 0)%Z eqn:Ez.
  - apply Z.ltb_lt in Ez.
    rewrite (py_int_run 16 (["-"] ++ txt "0x" ++ p) (txt "0x" ++ p) true
               (Z.abs z) (length p)); rewrite ?Hskip;
      [f_equal; lia | reflexivity | rewrite Hp; exact Hu | exact Hscan
      | exact Hlen | reflexivity].
  - apply Z.ltb_ge in Ez.
    rewrite (py_int_run 16 ([] ++ txt "0x" ++ p) (txt "0x" ++ p) false
               (Z.abs z) (length p)); rewrite ?Hskip;
      [f_equal; lia | reflexivity | rewrite Hp; exact Hu | exact Hscan
      | exact Hlen | reflexivity].
Qed.

Lemma within_limit_mono (base : Z) (m n : nat) :
  m <= n -> within_limit base n = true -> within_limit base m = true.
Proof.
  unfold within_limit. intros Hle. rewrite !orb_true_iff, !Nat.leb_le.
  intros [[H | H] | H]; auto. right. lia.
Qed.

Lemma digits_length_le (base n : Z) (k : nat) :
  (2 <= base)%Z -> (0 <= n < base ^ Z.of_nat k)%Z -> 1 <= k ->
  length (digits base n) <= k.
Proof.
  intros Hb Hn Hk. unfold digits.
  destruct (digits_fuel_length base (Z.to_nat (Z.log2 n)) Hb n
              (digits_enough_fuel base n Hb ltac:(lia))) as [H1 [H2 | H2]].
  - cbv zeta in H2. lia.
  - cbv zeta in H1, H2.
    set (len := length (digits_fuel (S (Z.to_nat (Z.log2 n))) base n)) in *.
    assert (base ^ (Z.of_nat len - 1) < base ^ Z.of_nat k)%Z as Hlt by lia.
    apply Z.pow_lt_mono_r_iff in Hlt; lia.
Qed.

(** A bin the script has read has a decimal numeral within the limit. *)
Lemma py_int_fits (tok : text) (b : Z) : py_int 10 tok = Some b -> fits b.
Proof.
  intros H. apply py_int_inv in H as (ds & Hne & Hr & Hl & _ & ->).
  unfold fits. apply (within_limit_mono 10 _ (length ds)); [|exact Hl].
  pose proof (radix_value_nonneg 10 ds ltac:(lia) Hr).
  pose proof (radix_value_bound 10 ds ltac:(lia) Hr).
  apply digits_length_le; [lia | |].
  - destruct (leading_minus tok); lia.
  - destruct ds; [congruence | simpl; lia].
Qed.

(** ** The lines of the printer *)

Lemma str_index_here (sub rest : text) : str_index sub (sub ++ rest) = Some 0.
Proof.
  pose proof (starts_with_app sub rest) as H.
  destruct (sub ++ rest); simpl; rewrite H; reflexivity.
Qed.

Lemma str_index_next (sub : text) (c : ascii) (s : text) :
  starts_with sub (c :: s) = false ->
  str_index sub (c :: s) = option_map S (str_index sub s).
Proof. intros H. cbn [str_index]. rewrite H. reflexivity. Qed.

Lemma str_index_guarded (c0 c1 : ascii) (p pre rest : text) :
  c0 <> c1 -> ~ In c1 pre ->
  str_index (c0 :: c1 :: p) (pre ++ (c0 :: c1 :: p) ++ rest) = Some (length pre).
Proof.
  intros Hne. induction pre as [|x pre IH]; intros Hin.
  - apply (str_index_here (c0 :: c1 :: p) rest).
  - change ((x :: pre) ++ (c0 :: c1 :: p) ++ rest)
      with (x :: (pre ++ (c0 :: c1 :: p) ++ rest)).
    rewrite str_index_next.
    + rewrite IH by (intros H; apply Hin; right; exact H). reflexivity.
    + cbn [starts_with]. destruct (Ascii.eqb c0 x); [|reflexivity]. simpl andb.
      destruct pre as [|y pre].
      * simpl. rewrite (proj2 (Ascii.eqb_neq c1 c0)) by congruence. reflexivity.
      * simpl. rewrite (proj2 (Ascii.eqb_neq c1 y)); [reflexivity|].
        intros ->. apply Hin. simpl. auto.
Qed.

Lemma str_index_char (c : ascii) (tok post : text) :
  ~ In c tok -> str_index [c] (tok ++ c :: post) = Some (length tok).
Proof.
  induction tok as [|x tok IH]; intros Hin.
  - apply (str_index_here [c] post).
  - change ((x :: tok) ++ c :: post) with (x :: (tok ++ c :: post)).
    rewrite str_index_next.
    + rewrite IH by (intros H; apply Hin; right; exact H). reflexivity.
    + cbn [starts_with]. replace (Ascii.eqb c x) with false; [reflexivity|].
      symmetry. apply Ascii.eqb_neq. intros ->. apply Hin. left. reflexivity.
Qed.

Lemma token_in_context (c0 c1 cl : ascii) (p pre tok post : text) :
  c0 <> c1 -> ~ In c1 pre -> ~ In cl tok ->
  token (c0 :: c1 :: p) [cl] (pre ++ (c0 :: c1 :: p) ++ tok ++ [cl] ++ post) = Some tok.
Proof.
  intros Hne Hpre Htok. unfold token, slice_from.
  rewrite (str_index_guarded c0 c1 p pre _ Hne Hpre).
  rewrite <- length_app, (app_assoc pre), skipn_app_exact.
  change (tok ++ [cl] ++ post) with (tok ++ cl :: post) at 1.
  rewrite (str_index_char cl tok post Htok).
  rewrite slice_app. reflexivity.
Qed.

Lemma upper_is_numeral (s : text) :
  Forall (fun c => upper_hex_char c = true) s ->
  Forall (fun c => numeral_char c = true) s.
Proof.
  apply Forall_impl. intros c H. unfold numeral_char. rewrite H. reflexivity.
Qed.

Lemma digits_numeral (base n : Z) :
  (2 <= base <= 16)%Z -> (0 <= n)%Z ->
  Forall (fun c => numeral_char c = true) (digits base n).
Proof. intros Hb Hn. apply upper_is_numeral, digits_fuel_upper; assumption. Qed.

Lemma sign_text_numeral (z : Z) :
  Forall (fun c => numeral_char c = true) (sign_text z).
Proof. unfold sign_text. destruct (z <? 0)%Z; repeat constructor. Qed.

Lemma numeral_of_chars (t : sample) (f : field_name) :
  Forall (fun c => numeral_char c = true) (numeral_of t f).
Proof.
  assert (forall z, Forall (fun c => numeral_char c = true) (hex_text z)) as Hhex.
  { intros z. unfold hex_text, pad. rewrite !Forall_app. repeat split.
    - apply sign_text_numeral.
    - repeat constructor.
    - apply Forall_forall. intros c Hc. apply repeat_spec in Hc. subst c. reflexivity.
    - apply digits_numeral; lia. }
  destruct f; simpl; auto.
  unfold dec_text. apply Forall_app. split.
  - apply sign_text_numeral.
  - apply digits_numeral; lia.
Qed.

Lemma close_not_in_numeral (t : sample) (f : field_name) :
  ~ In (close_char f) (numeral_of t f).
Proof.
  intros H. pose proof (numeral_of_chars t f) as Hc.
  rewrite Forall_forall in Hc. apply Hc in H. destruct f; discriminate.
Qed.

Lemma guard_not_in_segment (t : sample) (f g : field_name) :
  f <> g -> ~ In (guard_of f) (segment t g).
Proof.
  intros Hne H. unfold segment in H. rewrite !in_app_iff in H.
  pose proof (numeral_of_chars t g) as Hc. rewrite Forall_forall in Hc.
  destruct H as [H | [H | [H | H]]].
  - destruct f, g; try congruence; simpl in H; intuition discriminate.
  - apply Hc in H. destruct f; discriminate.
  - destruct f, g; try congruence; simpl in H; intuition discriminate.
  - destruct f, g; try congruence; simpl in H; intuition discriminate.
Qed.

Lemma guard_not_before (t : sample) (f : field_name) (before : list field_name) :
  ~ In f before -> ~ In (guard_of f) (concat (map (segment t) before)).
Proof.
  induction before as [|g before IH]; simpl; [tauto|].
  intros Hn. rewrite in_app_iff. intros [H | H].
  - revert H. apply guard_not_in_segment. intros ->. tauto.
  - apply IH; tauto.
Qed.

Lemma first_split (f : field_name) (order : list field_name) :
  In f order ->
  exists before after, order = before ++ f :: after /\ ~ In f before.
Proof.
  induction order as [|g order IH]; [intros []|].
  assert ({g = f} + {g <> f}) as [-> | Hne] by decide equality.
  - intros _. exists [], order. auto.
  - intros [-> | H]; [congruence|].
    destruct (IH H) as (before & after & -> & Hn).
    exists (g :: before), after. simpl. intuition congruence.
Qed.

Lemma open_of_shape (f : field_name) :
  exists c0 p, open_of f = c0 :: guard_of f :: p /\ c0 <> guard_of f.
Proof. destruct f; eexists _, _; split; try reflexivity; discriminate. Qed.

(** In a printed line every field is found, wherever it stands. *)
Lemma token_in_line (t : sample) (f : field_name) (order : list field_name) :
  In f order ->
  token (open_of f) (close_of f) (line_in order t) = Some (numeral_of t f).
Proof.
  intros H. destruct (first_split f order H) as (before & after & -> & Hn).
  destruct (open_of_shape f) as (c0 & p & Ho & Hne).
  unfold line_in. rewrite map_app, concat_app. cbn [map concat].
  unfold segment at 2. rewrite Ho.
  replace (close_of f) with [close_char f] by (destruct f; reflexivity).
  rewrite <- !app_assoc.
  apply token_in_context.
  - exact Hne.
  - apply guard_not_before. exact Hn.
  - apply close_not_in_numeral.
Qed.

Lemma sample_of_line_in (t : sample) (order : list field_name) :
  In FBin order -> In FReal order -> In FImag order -> fits (bin_of t) ->
  sample_of (line_in order t) = Some t.
Proof.
  intros Hb Hr Hi Hfit. unfold sample_of.
  pose proof (token_in_line t FBin order Hb) as Tb.
  pose proof (token_in_line t FReal order Hr) as Tr.
  pose proof (token_in_line t FImag order Hi) as Ti.
  cbn [open_of close_of numeral_of] in Tb, Tr, Ti. rewrite Tb, Tr, Ti.
  rewrite (py_int_dec_text _ Hfit), !py_int_hex_text.
  destruct t as [[b r] i]. reflexivity.
Qed.

Lemma sample_of_fits (l : text) (t : sample) : sample_of l = Some t -> fits (bin_of t).
Proof.
  unfold sample_of.
  destruct (token BIN_OPEN BIN_CLOSE l) as [tb|]; [|discriminate].
  destruct (py_int 10 tb) as [b|] eqn:Eb; [|discriminate].
  destruct (token REAL_OPEN SPACE l) as [tr|]; [|discriminate].
  destruct (py_int 16 tr) as [r|]; [|discriminate].
  destruct (token IMAG_OPEN SPACE l) as [ti|]; [|discriminate].
  destruct (py_int 16 ti) as [i|]; [|discriminate].
  intros [= <-]. apply (py_int_fits tb). exact Eb.
Qed.

Lemma fits_one_digit (z : Z) : (-10 < z < 10)%Z -> fits z.
Proof.
  intros H. unfold fits, within_limit.
  assert (length (digits 10 (Z.abs z)) <= 1) as Hl.
  { apply digits_length_le; [lia | simpl; lia | lia]. }
  destruct (Nat.eqb_spec max_str_digits 0) as [-> | Hne]; [reflexivity|].
  rewrite orb_true_iff. right. apply Nat.leb_le. lia.
Qed.

Lemma lacks_token_iff (l : text) :
  lacks_token l <->
  token BIN_OPEN BIN_CLOSE l = None \/ token REAL_OPEN SPACE l = None \/
  token IMAG_OPEN SPACE l = None.
Proof. unfold lacks_token. rewrite !token_None_iff. reflexivity. Qed.

(** ** The loop body and the searches, read backwards *)

Lemma field_Done_iff (n : nat) (open close l tok : text) (s s' : state) :
  field n open close l s = (Done tok, s') <->
  token_between open close l tok /\ s' = s.
Proof.
  rewrite field_token, <- token_iff.
  destruct (token open close l) as [tok'|]; split.
  - intros [= -> <-]. auto.
  - intros [[= ->] ->]. reflexivity.
  - discriminate.
  - intros [[=] _].
Qed.

Lemma body_Done_inv (n : nat) (l : text) (s s' : state) :
  body n l s = (Done tt, s') ->
  exists t, sample_of l = Some t /\ s' = push s l t.
Proof.
  intros H. destruct (sample_of l) as [t|] eqn:E.
  - rewrite (body_Done n l t s E) in H. injection H as <-. eauto.
  - destruct (body_Raised n l s E) as (e & s1 & E1 & _). congruence.
Qed.

(** A finished body appended the three numbers [int] read from the
    three tokens [field] cut. *)
Lemma body_reads_tokens (n : nat) (l : text) (s s' : state) (tb tr ti : text) :
  body n l s = (Done tt, s') ->
  token_between BIN_OPEN BIN_CLOSE l tb ->
  token_between REAL_OPEN SPACE l tr ->
  token_between IMAG_OPEN SPACE l ti ->
  exists b r i,
    py_int 10 tb = Some b /\ py_int 16 tr = Some r /\ py_int 16 ti = Some i /\
    s' = push s l (b, r, i).
Proof.
  intros H Hb Hr Hi. apply body_Done_inv in H as (t & Hs & ->).
  apply token_iff in Hb, Hr, Hi. unfold sample_of in Hs. rewrite Hb, Hr, Hi in Hs.
  destruct (py_int 10 tb) as [b|]; [|discriminate].
  destruct (py_int 16 tr) as [r|]; [|discriminate].
  destruct (py_int 16 ti) as [i|]; [|discriminate].
  injection Hs as <-. exists b, r, i. auto.
Qed.

Lemma run_Done_inv (pre block post : list text) (st : state) :
  ~ In HEADER pre -> ~ In BLANK block ->
  run (pre ++ HEADER :: block ++ BLANK :: post) = (Done tt, st) ->
  exists ts,
    Forall2 (fun l t => sample_of l = Some t) block ts /\
    st = mkState (map Print block ++
                  chart_of (map bin_of ts) (map real_of ts) (map imag_of ts))
                 (map bin_of ts) (map real_of ts) (map imag_of ts).
Proof.
  intros Hh Hb Hrun.
  destruct (block_cases block) as [[ts Hts] | (good & bad & rest & -> & Hg & Hbad)].
  - rewrite (run_block_Done pre block post ts Hh Hb Hts) in Hrun.
    injection Hrun as <-. eauto.
  - destruct (run_block_Raised pre good bad rest post Hh Hb Hg Hbad)
      as (e & st' & E & _). congruence.
Qed.

Lemma Forall2_nth_error_left {A B} (P : A -> B -> Prop) (xs : list A) (ys : list B) :
  Forall2 P xs ys ->
  forall k x, nth_error xs k = Some x ->
  exists y, nth_error ys k = Some y /\ P x y.
Proof.
  induction 1 as [|x0 y0 xs ys H0 _ IH]; intros [|k] x; simpl; try discriminate.
  - intros [= <-]. eauto.
  - apply IH.
Qed.

Lemma no_sample_no_data_line (l : text) :
  sample_of l = None -> forall t, ~ data_line l t.
Proof. intros H t Ht. apply sample_of_iff in Ht. congruence. Qed.

Lemma samples_are_data_lines (ls : list text) :
  Forall (fun l => sample_of l <> None) ls ->
  Forall (fun l => exists t, data_line l t) ls.
Proof.
  apply Forall_impl. intros l H. destruct (sample_of l) as [t|] eqn:E; [|congruence].
  exists t. apply sample_of_iff. exact E.
Qed.

Lemma sample_numbers (l tb tr ti : text) (t : sample) :
  sample_of l = Some t ->
  token_between BIN_OPEN BIN_CLOSE l tb ->
  token_between REAL_OPEN SPACE l tr ->
  token_between IMAG_OPEN SPACE l ti ->
  py_int 10 tb = Some (bin_of t) /\ py_int 16 tr = Some (real_of t) /\
  py_int 16 ti = Some (imag_of t).
Proof.
  intros Hs Hb Hr Hi. apply token_iff in Hb, Hr, Hi.
  unfold sample_of in Hs. rewrite Hb, Hr, Hi in Hs.
  destruct (py_int 10 tb) as [b|]; [|discriminate].
  destruct (py_int 16 tr) as [r|]; [|discriminate].
  destruct (py_int 16 ti) as [i|]; [|discriminate].
  injection Hs as <-. auto.
Qed.

Lemma sample_hex_numbers (l tr ti : text) (t : sample) :
  sample_of l = Some t ->
  token_between REAL_OPEN SPACE l tr ->
  token_between IMAG_OPEN SPACE l ti ->
  py_int 16 tr = Some (real_of t) /\ py_int 16 ti = Some (imag_of t).
Proof.
  intros Hs Hr Hi.
  destruct (token BIN_OPEN BIN_CLOSE l) as [tb|] eqn:Eb.
  - apply token_iff in Eb.
    destruct (sample_numbers l tb tr ti t Hs Eb Hr Hi) as (_ & H1 & H2). auto.
  - unfold sample_of in Hs. rewrite Eb in Hs. discriminate.
Qed.

Lemma body_Done_iff (n : nat) (l : text) (s s' : state) :
  body n l s = (Done tt, s') <-> exists t, data_line l t /\ s' = push s l t.
Proof.
  split.
  - intros H. apply body_Done_inv in H as (t & Hs & ->).
    exists t. split; [apply sample_of_iff; exact Hs | reflexivity].
  - intros (t & Ht & ->). apply body_Done. apply sample_of_iff. exact Ht.
Qed.

Lemma parsed_block_has_no_blank (block : list text) (ts : list sample) :
  Forall2 (fun l t => sample_of l = Some t) block ts -> ~ In BLANK block.
Proof.
  induction 1 as [|l t block ts Hl _ IH]; [intros []|].
  intros [-> | H]; [|auto].
  apply sample_of_iff in Hl. exact (data_line_not_blank _ _ Hl eq_refl).
Qed.

Lemma arranged_lines_parse (specs : list (list field_name * sample)) :
  Forall (fun p => Permutation (fst p) [FBin; FReal; FImag] /\ fits (bin_of (snd p)))
         specs ->
  Forall2 (fun l t => sample_of l = Some t)
          (map (fun p => line_in (fst p) (snd p)) specs) (map snd specs).
Proof.
  induction 1 as [|[order t] specs [Hp Hfit] _ IH]; simpl; constructor; [|exact IH].
  simpl in Hp, Hfit.
  assert (forall f, In f order) as Hall.
  { intros f. apply (Permutation_in f (Permutation_sym Hp)). destruct f; simpl; auto. }
  apply sample_of_line_in; auto.
Qed.

(** * The properties of the specification *)

(** C1.  A file with exactly one header line, followed by N well-formed
    data lines and then a blank line, gives exactly N records, in the
    order of their lines: the run finishes, every line is echoed, and the
    three lists hold the bin, real and imaginary numbers of the lines,
    line by line. *)
Theorem C1_one_record_per_data_line
    (pre data post : list text) (samples : list sample) :
  count_occ text_eq_dec (pre ++ HEADER :: data ++ BLANK :: post) HEADER = 1 ->
  Forall2 data_line data samples ->
  exists st,
    run (pre ++ HEADER :: data ++ BLANK :: post) = (Done tt, st) /\
    length (bins st) = length data /\
    bins st = map bin_of samples /\
    real st = map real_of samples /\
    imag st = map imag_of samples /\
    out st = map Print data ++ chart_of (bins st) (real st) (imag st).
Proof.
  intros Hone Hdata.
  assert (~ In HEADER pre) as Hh by (eapply count_occ_one_first; eassumption).
  assert (~ In BLANK data) as Hb.
  { intros Hin. clear Hone. induction Hdata as [|l t data ts Hl _ IH]; [exact Hin|].
    destruct Hin as [->|Hin]; [|auto].
    exact (data_line_not_blank _ _ Hl eq_refl). }
  eexists. split.
  - apply run_block_Done; [assumption | assumption |].
    apply Forall2_sample_of. eassumption.
  - simpl. rewrite length_map. apply Forall2_length in Hdata. auto 10.
Qed.

(** C2, amended.  When a line of the extracted block lacks one of the six
    delimiters, the run ends with a FormatError and its trace holds no
    chart event.  The error is raised at the first line of the block that
    does not parse: every line before it is a data line and it is none; it
    stands at or before the line in question, and is that very line when
    the lines before it parse.  The trace is the echo of the block up to
    and including that line.  Conversely a trace with a chart event comes
    only from a run in which every line of the block parsed. *)
Theorem C2_missing_token_stops_before_chart :
  (forall (pre block post : list text) (i : nat) (l : text),
      ~ In HEADER pre -> ~ In BLANK block ->
      nth_error block i = Some l -> lacks_token l ->
      exists e st j bad,
        run (pre ++ HEADER :: block ++ BLANK :: post) = (Raised e, st) /\
        classify e = FormatError /\
        error_line e = Some j /\ j <= i /\
        nth_error block j = Some bad /\ (forall t, ~ data_line bad t) /\
        Forall (fun l' => exists t, data_line l' t) (firstn j block) /\
        (Forall (fun l' => exists t, data_line l' t) (firstn i block) -> j = i) /\
        out st = map Print (firstn (S j) block) /\
        (forall ev, In ev (out st) -> is_chart ev = false)) /\
  (forall (lines : list text) (o : outcome unit) (st : state),
      run lines = (o, st) ->
      (exists ev, In ev (out st) /\ is_chart ev = true) ->
      o = Done tt /\
      exists pre block post ts,
        lines = pre ++ HEADER :: block ++ BLANK :: post /\
        ~ In HEADER pre /\ ~ In BLANK block /\ Forall2 data_line block ts).
Proof.
  split; [|apply chart_only_after_block].
  intros pre block post i l Hh Hb Hi Hl.
  apply lacks_token_sample_of in Hl.
  destruct (first_failure block i l Hi Hl)
    as (good & bad & rest & E & Hg & Hbad & Hle & Heq).
  rewrite E in Hb |- *.
  destruct (run_block_Raised pre good bad rest post Hh Hb Hg Hbad)
    as (e & st & Hrun & Hc & Hn & Ho).
  assert (firstn (length good) (good ++ bad :: rest) = good) as Hfirst
    by apply firstn_app_exact.
  assert (firstn (S (length good)) (good ++ bad :: rest) = good ++ [bad]) as Hnext.
  { replace (good ++ bad :: rest) with ((good ++ [bad]) ++ rest)
      by (rewrite <- app_assoc; reflexivity).
    replace (S (length good)) with (length (good ++ [bad]))
      by (rewrite length_app; simpl; lia).
    apply firstn_app_exact. }
  exists e, st, (length good), bad.
  split; [exact Hrun|]. split; [exact Hc|]. split; [exact Hn|]. split; [exact Hle|].
  split; [rewrite nth_error_app2, Nat.sub_diag by lia; reflexivity|].
  split; [apply no_sample_no_data_line; exact Hbad|].
  split; [rewrite Hfirst; apply samples_are_data_lines; exact Hg|].
  split.
  - intros HF. apply Heq. rewrite E. revert HF. apply Forall_impl.
    intros l' [t Ht]. apply sample_of_iff in Ht. congruence.
  - rewrite Hnext. split; [exact Ho|].
    intros ev. rewrite Ho. apply no_chart_in_echo.
Qed.

(** C4.  When no line after the header line is the blank line, the run
    ends with a NotFoundError raised by the search for the blank line, and
    nothing was echoed, recorded or plotted. *)
Theorem C4_no_blank_line_is_not_found (pre rest : list text) :
  ~ In HEADER pre -> ~ In BLANK rest ->
  run (pre ++ HEADER :: rest) = (Raised BlankNotFound, initial) /\
  classify BlankNotFound = NotFoundError.
Proof.
  intros Hh Hb. split; [|reflexivity].
  unfold run. apply main_no_blank; assumption.
Qed.

(** C5.  When no line equals the header line, the run ends with a
    NotFoundError raised by the search for the header, and nothing was
    echoed, recorded or plotted. *)
Theorem C5_no_header_is_not_found (lines : list text) :
  ~ In HEADER lines ->
  run lines = (Raised HeaderNotFound, initial) /\
  classify HeaderNotFound = NotFoundError.
Proof.
  intros Hn. split; [|reflexivity].
  unfold run. apply main_no_header; assumption.
Qed.

(** C6.  The header is matched by equality of the whole line, newline
    included: the position the search returns holds the header itself and
    no earlier line does; a line that is the header text followed by more
    characters before the newline is not the header; and a file whose
    lines all differ from the header, however little, ends with the
    NotFoundError of the header search. *)
Theorem C6_header_match_is_exact :
  (forall (lines : list text) (i : nat),
      list_index HEADER lines = Some i ->
      nth_error lines i = Some HEADER /\
      forall j, j < i -> nth_error lines j <> Some HEADER) /\
  (forall ws : text, ws <> [] -> HEADER_TEXT ++ ws ++ [NL] <> HEADER) /\
  (forall (pre post : list text) (cand : text),
      cand <> HEADER -> ~ In HEADER pre -> ~ In HEADER post ->
      run (pre ++ cand :: post) = (Raised HeaderNotFound, initial) /\
      classify HeaderNotFound = NotFoundError).
Proof.
  split; [|split].
  - intros lines i H. apply list_index_Some in H as (pre & post & -> & <- & Hn).
    split.
    + rewrite nth_error_app2, Nat.sub_diag by lia. reflexivity.
    + intros j Hj E. rewrite nth_error_app1 in E by assumption.
      apply nth_error_In in E. contradiction.
  - intros ws Hws E. apply (f_equal (@length ascii)) in E.
    unfold HEADER in E. fold HEADER_TEXT in E. rewrite !length_app in E.
    destruct ws; [congruence | simpl in E; lia].
  - intros pre post cand Hc Hpre Hpost. split; [|reflexivity].
    unfold run. apply main_no_header. rewrite in_app_iff. simpl.
    intuition congruence.
Qed.

(** C7.  When the header line is directly followed by the blank line, the
    run finishes with no record and the four plotting calls are made on
    empty lists. *)
Theorem C7_empty_block_plots_empty_chart (pre post : list text) :
  ~ In HEADER pre ->
  run (pre ++ HEADER :: BLANK :: post) =
  (Done tt, mkState (chart_of [] [] []) [] [] []).
Proof.
  intros Hh.
  apply (run_block_Done pre [] post [] Hh); [intros [] | constructor].
Qed.

(** C9.  When the loop has gone through the block, that is when the run
    reaches the plotting calls, the lists [bins], [real] and [imag] have
    the same length, the number of lines of the block, and so have the
    lists every plotting call receives.  The loop keeps the lists aligned
    from one line to the next; no statement of the script compares their
    lengths. *)
Theorem C9_lists_have_block_length (lines : list text) (st : state) :
  run lines = (Done tt, st) ->
  exists pre block post,
    lines = pre ++ HEADER :: block ++ BLANK :: post /\
    ~ In HEADER pre /\ ~ In BLANK block /\
    length (bins st) = length block /\
    length (real st) = length block /\
    length (imag st) = length block /\
    forall xs ys label, In (Plot xs ys label) (out st) ->
                        length xs = length block /\ length ys = length block.
Proof.
  intros Hrun.
  destruct (lines_cases lines)
    as [Hn | [(pre & rest & -> & Hh & Hb) | (pre & block & post & -> & Hh & Hb)]].
  - unfold run in Hrun. rewrite main_no_header in Hrun by assumption. discriminate.
  - unfold run in Hrun. rewrite main_no_blank in Hrun by assumption. discriminate.
  - exists pre, block, post. do 3 (split; [auto|]).
    unfold run in Hrun. rewrite main_block in Hrun by assumption.
    unfold bind in Hrun.
    destruct (for_each 0 block initial) as [[[]|e] s1] eqn:E; [|discriminate].
    assert (aligned (0 + length block) s1) as (Hb1 & Hr1 & Hi1).
    { eapply for_each_aligned; [exact E|]. repeat split. }
    assert (echo_only s1) as He.
    { eapply for_each_echo_only; [exact E|]. intros ev []. }
    rewrite plot_all_run in Hrun. injection Hrun as <-. simpl.
    do 3 (split; [assumption|]).
    intros xs ys label. rewrite in_app_iff. intros [Hin | Hin].
    + apply He in Hin. discriminate.
    + simpl in Hin.
      destruct Hin as [[= <- <- _] | [[= <- <- _] | [[=] | [[=] | []]]]]; auto.
Qed.

(** C3.  The real and imaginary tokens of a line that carry no leading
    minus sign are read as the plain base-16 number their hexadecimal
    digits denote, which is never negative: there is no reading of the
    token as a two's-complement word of some width.  This is what the
    loop body appends to [real] and [imag] for the tokens [field] cuts,
    and what a finished run holds in these lists at the place of the
    line.  On the scenario of the specification the run gives bins 0, 1,
    real parts 10, 20 and imaginary parts 4294967286, 4294967276. *)
Theorem C3_hex_tokens_are_read_unsigned :
  (forall (n : nat) (l tr ti : text) (s s' : state),
      body n l s = (Done tt, s') ->
      field n REAL_OPEN SPACE l s = (Done tr, s) ->
      field n IMAG_OPEN SPACE l s = (Done ti, s) ->
      leading_minus tr = false -> leading_minus ti = false ->
      real s' = real s ++ [radix_value 16 (digits_below 16 tr)] /\
      imag s' = imag s ++ [radix_value 16 (digits_below 16 ti)] /\
      (0 <= radix_value 16 (digits_below 16 tr))%Z /\
      (0 <= radix_value 16 (digits_below 16 ti))%Z) /\
  (forall (pre block post : list text) (st : state)
          (k : nat) (l tr ti : text) (s : state),
      ~ In HEADER pre -> ~ In BLANK block ->
      run (pre ++ HEADER :: block ++ BLANK :: post) = (Done tt, st) ->
      nth_error block k = Some l ->
      field k REAL_OPEN SPACE l s = (Done tr, s) ->
      field k IMAG_OPEN SPACE l s = (Done ti, s) ->
      leading_minus tr = false -> leading_minus ti = false ->
      nth_error (real st) k = Some (radix_value 16 (digits_below 16 tr)) /\
      nth_error (imag st) k = Some (radix_value 16 (digits_below 16 ti))) /\
  exists st,
    run scenario = (Done tt, st) /\
    bins st = [0; 1]%Z /\ real st = [10; 20]%Z /\
    imag st = [4294967286; 4294967276]%Z /\
    out st = map Print (slice 1 3 scenario) ++ chart_of (bins st) (real st) (imag st).
Proof.
  assert (forall l tr ti t,
            sample_of l = Some t ->
            token_between REAL_OPEN SPACE l tr -> token_between IMAG_OPEN SPACE l ti ->
            leading_minus tr = false -> leading_minus ti = false ->
            real_of t = radix_value 16 (digits_below 16 tr) /\
            imag_of t = radix_value 16 (digits_below 16 ti)) as Hval.
  { intros l tr ti t Hs Hr Hi Hmr Hmi.
    destruct (sample_hex_numbers l tr ti t Hs Hr Hi) as [Er Ei].
    apply py_int_value in Er, Ei. rewrite Hmr in Er. rewrite Hmi in Ei. auto. }
  split; [|split].
  - intros n l tr ti s s' Hbody Hr Hi Hmr Hmi.
    apply field_Done_iff in Hr as [Hr _]. apply field_Done_iff in Hi as [Hi _].
    apply body_Done_inv in Hbody as (t & Hs & ->).
    destruct (Hval l tr ti t Hs Hr Hi Hmr Hmi) as [Vr Vi].
    simpl. rewrite Vr, Vi.
    repeat split; try reflexivity;
      (apply radix_value_nonneg; [lia | apply digits_below_range]).
  - intros pre block post st k l tr ti s Hh Hb Hrun Hk Hr Hi Hmr Hmi.
    apply field_Done_iff in Hr as [Hr _]. apply field_Done_iff in Hi as [Hi _].
    apply run_Done_inv in Hrun as (ts & Hts & ->); [|assumption|assumption].
    destruct (Forall2_nth_error_left _ _ _ Hts k l Hk) as (t & Ht & Hs).
    destruct (Hval l tr ti t Hs Hr Hi Hmr Hmi) as [Vr Vi].
    simpl. rewrite <- Vr, <- Vi.
    split; apply map_nth_error; exact Ht.
  - exists (mkState (map Print (slice 1 3 scenario) ++
                     chart_of [0; 1] [10; 20] [4294967286; 4294967276])%Z
                    [0; 1]%Z [10; 20]%Z [4294967286; 4294967276]%Z).
    split; [|repeat split].
    apply (run_block_Done [] (slice 1 3 scenario) []
             [(0, 10, 4294967286); (1, 20, 4294967276)]%Z).
    + intros [].
    + vm_compute. intuition discriminate.
    + repeat constructor.
      * apply (sample_of_line_in (0, 10, 4294967286)%Z [FBin; FReal; FImag]);
          simpl; auto. apply fits_one_digit. unfold bin_of; simpl; lia.
      * apply (sample_of_line_in (1, 20, 4294967276)%Z [FBin; FReal; FImag]);
          simpl; auto. apply fits_one_digit. unfold bin_of; simpl; lia.
Qed.

(** C8.  Round trip.  A sample that the loop body read from some line,
    written back as a line (the bin in decimal between the bin
    delimiters, the real and imaginary parts in hexadecimal between
    theirs and a space) and read again by the loop body, is the same
    sample. *)
Theorem C8_written_sample_reads_back (l : text) (t : sample) :
  sample_of l = Some t ->
  sample_of (line_of t) = Some t /\
  forall n s, body n (line_of t) s = (Done tt, push s (line_of t) t).
Proof.
  intros H. apply sample_of_fits in H.
  assert (sample_of (line_of t) = Some t) as Hs
    by (apply sample_of_line_in; simpl; auto).
  split; [exact Hs|]. intros n s. apply body_Done. exact Hs.
Qed.

(** C10.  The loop body does not look at the order of the fields.  Each
    [field] finds its token where the opening delimiter first occurs,
    counted from the start of the line, whatever stands before it; the
    body finishes on a line exactly when the three tokens are found in
    this way and are numerals, and nothing relates the three places.  So
    the body reads a line that carries the bin, real and imaginary fields
    in any order as the sample it reads from the line in the order of the
    log, and a file whose block is made of such lines runs to the plotting
    calls with the samples of its lines. *)
Theorem C10_field_order_is_not_checked :
  (forall (n : nat) (open close l tok : text) (s : state),
      field n open close l s = (Done tok, s) <-> token_between open close l tok) /\
  (forall (n : nat) (l : text) (s s' : state),
      body n l s = (Done tt, s') <-> exists t, data_line l t /\ s' = push s l t) /\
  (forall (order : list field_name) (t : sample) (n : nat) (s : state),
      Permutation order [FBin; FReal; FImag] -> fits (bin_of t) ->
      body n (line_in order t) s = (Done tt, push s (line_in order t) t)) /\
  (forall (pre post : list text) (specs : list (list field_name * sample)),
      ~ In HEADER pre ->
      Forall (fun p => Permutation (fst p) [FBin; FReal; FImag] /\
                       fits (bin_of (snd p))) specs ->
      exists st,
        run (pre ++ HEADER :: map (fun p => line_in (fst p) (snd p)) specs ++
             BLANK :: post) = (Done tt, st) /\
        bins st = map bin_of (map snd specs) /\
        real st = map real_of (map snd specs) /\
        imag st = map imag_of (map snd specs)).
Proof.
  split; [|split; [|split]].
  - intros n open close l tok s. rewrite field_Done_iff. tauto.
  - apply body_Done_iff.
  - intros order t n s Hp Hfit. apply body_Done.
    assert (forall f, In f order) as Hall.
    { intros f. apply (Permutation_in f (Permutation_sym Hp)).
      destruct f; simpl; auto. }
    apply sample_of_line_in; auto.
  - intros pre post specs Hh Hspecs.
    pose proof (arranged_lines_parse specs Hspecs) as Hts.
    eexists. split.
    + apply run_block_Done; [exact Hh | | exact Hts].
      eapply parsed_block_has_no_blank. exact Hts.
    + simpl. auto.
Qed.

(** * Further properties of the script *)

(** ** Reading the file *)

Lemma universal_newlines_plain (s : text) :
  ~ In CR s -> universal_newlines s = s.
Proof.
  induction s as [|c s IH]; [reflexivity|]. intros H. cbn [universal_newlines].
  destruct (Ascii.eqb c CR) eqn:E.
  - apply Ascii.eqb_eq in E. subst c. elim H. left. reflexivity.
  - f_equal. apply IH. intros Hin. apply H. right. exact Hin.
Qed.

Lemma universal_newlines_no_cr (s : text) : ~ In CR (universal_newlines s).
Proof.
  assert (forall n s, length s <= n -> ~ In CR (universal_newlines s)) as H.
  { clear s. induction n as [|n IH]; intros [|c s] Hl; simpl in Hl; try lia;
      try (intros []).
    cbn [universal_newlines]. destruct (Ascii.eqb c CR) eqn:E.
    - intros [Hc | Hin]; [discriminate|].
      destruct s as [|d s]; [elim Hin|].
      destruct (Ascii.eqb d NL); revert Hin; apply IH; simpl in *; lia.
    - apply Ascii.eqb_neq in E. intros [Hc | Hin]; [congruence|].
      revert Hin. apply IH. lia. }
  apply (H (length s)). lia.
Qed.

Lemma split_lines_full (s rest : text) :
  ~ In NL s -> split_lines (s ++ NL :: rest) = (s ++ [NL]) :: split_lines rest.
Proof.
  induction s as [|c s IH]; intros H.
  - cbn [app split_lines]. rewrite Ascii.eqb_refl. reflexivity.
  - cbn [app split_lines].
    destruct (Ascii.eqb c NL) eqn:E.
    + apply Ascii.eqb_eq in E. subst c. elim H. left. reflexivity.
    + rewrite IH by (intros Hin; apply H; right; exact Hin). reflexivity.
Qed.

Lemma split_lines_open (s : text) :
  ~ In NL s -> s <> [] -> split_lines s = [s].
Proof.
  induction s as [|c s IH]; intros H Hne; [congruence|].
  cbn [split_lines]. destruct (Ascii.eqb c NL) eqn:E.
  - apply Ascii.eqb_eq in E. subst c. elim H. left. reflexivity.
  - destruct s as [|d s]; [reflexivity|].
    rewrite IH; [reflexivity | intros Hin; apply H; right; exact Hin | discriminate].
Qed.

Lemma split_lines_concat (lines : list text) (last : text) :
  Forall full_line lines -> ~ In NL last ->
  split_lines (concat lines ++ last) =
  lines ++ match last with [] => [] | _ :: _ => [last] end.
Proof.
  intros Hl Hlast. induction Hl as [|l lines (s & -> & Hs & _) _ IH].
  - simpl. destruct last as [|c r]; [reflexivity|].
    apply split_lines_open; [assumption | discriminate].
  - cbn [concat]. rewrite <- !app_assoc. cbn [app].
    rewrite split_lines_full by assumption. rewrite IH. reflexivity.
Qed.

Lemma concat_no_cr (lines : list text) (last : text) :
  Forall full_line lines -> ~ In CR last -> ~ In CR (concat lines ++ last).
Proof.
  intros Hl Hlast. rewrite in_app_iff, in_concat.
  intros [(l & Hin & Hc) | H]; [|contradiction].
  rewrite Forall_forall in Hl. destruct (Hl l Hin) as (s & -> & _ & Hs).
  apply in_app_iff in Hc as [Hc | [Hc | []]]; [contradiction | discriminate].
Qed.

(** X8.  A file written as full lines, each some text without line breaks
    and then a newline, with possibly some text without a newline after
    the last of them, is read back as these lines: the script then runs
    on exactly them. *)
Theorem X8_readlines_gives_the_lines_written (lines : list text) (last : text) :
  Forall full_line lines -> one_line last ->
  readlines (concat lines ++ last) =
    lines ++ match last with [] => [] | _ :: _ => [last] end /\
  script (concat lines ++ last) =
    run (lines ++ match last with [] => [] | _ :: _ => [last] end).
Proof.
  intros Hl [Hn Hc].
  assert (readlines (concat lines ++ last) =
          lines ++ match last with [] => [] | _ :: _ => [last] end) as E.
  { unfold readlines. rewrite universal_newlines_plain by (apply concat_no_cr; assumption).
    apply split_lines_concat; assumption. }
  split; [exact E|]. unfold script. rewrite E. reflexivity.
Qed.

Lemma split_lines_shape (s : text) :
  concat (split_lines s) = s /\
  Forall (fun l => l <> [] /\ ~ In NL (removelast l)) (split_lines s) /\
  forall l, In l (removelast (split_lines s)) -> exists b, l = b ++ [NL].
Proof.
  induction s as [|c s (IHc & IHf & IHl)].
  - simpl. split; [reflexivity|]. split; [constructor | intros l []].
  - cbn [split_lines]. destruct (Ascii.eqb c NL) eqn:E.
    + apply Ascii.eqb_eq in E. subst c. split; [|split].
      * cbn [concat app]. rewrite IHc. reflexivity.
      * constructor; [|exact IHf]. split; [discriminate | intros []].
      * intros l Hin. destruct (split_lines s) as [|l' ls] eqn:Es; [elim Hin|].
        change (removelast ([NL] :: l' :: ls)) with ([NL] :: removelast (l' :: ls)) in Hin.
        destruct Hin as [<- | Hin]; [exists []; reflexivity | auto].
    + apply Ascii.eqb_neq in E.
      destruct (split_lines s) as [|l ls] eqn:Es.
      * simpl in IHc. subst s. split; [reflexivity|]. split.
        -- constructor; [|constructor]. split; [discriminate | intros []].
        -- intros l [].
      * split; [|split].
        -- cbn [concat app] in *. rewrite IHc. reflexivity.
        -- inversion IHf as [|? ? [Hne Hnl] Hrest]; subst.
           constructor; [|exact Hrest]. split; [discriminate|].
           destruct l as [|d l]; [congruence|].
           change (removelast (c :: d :: l)) with (c :: removelast (d :: l)).
           intros [Hc | Hin]; [congruence | contradiction].
        -- intros l0 Hin. destruct ls as [|l1 ls]; [elim Hin|].
           change (removelast ((c :: l) :: l1 :: ls))
             with ((c :: l) :: removelast (l1 :: ls)) in Hin.
           change (removelast (l :: l1 :: ls)) with (l :: removelast (l1 :: ls)) in IHl.
           destruct Hin as [<- | Hin].
           ++ destruct (IHl l (or_introl eq_refl)) as [b ->].
              exists (c :: b). reflexivity.
           ++ apply IHl. right. exact Hin.
Qed.

Lemma universal_newlines_translation (s : text) :
  newline_translation s (universal_newlines s).
Proof.
  assert (forall n s, length s <= n -> newline_translation s (universal_newlines s)) as H.
  { clear s. induction n as [|n IH]; intros [|c s] Hl; simpl in Hl; try lia;
      try constructor.
    cbn [universal_newlines]. destruct (Ascii.eqb c CR) eqn:E.
    - apply Ascii.eqb_eq in E. subst c. destruct s as [|d s].
      + apply nt_cr; [discriminate | constructor].
      + destruct (Ascii.eqb d NL) eqn:Ed.
        * apply Ascii.eqb_eq in Ed. subst d. apply nt_crlf. apply IH. simpl in Hl. lia.
        * apply Ascii.eqb_neq in Ed. apply nt_cr; [congruence|]. apply IH. lia.
    - apply Ascii.eqb_neq in E. apply nt_char; [exact E|]. apply IH. lia. }
  apply (H (length s)). lia.
Qed.

(** X9.  What [readlines] gives, whatever the file holds: the lines put
    end to end are the content with each carriage return followed by a
    newline, and each other carriage return, made one newline; no line is
    empty or holds a carriage return; a newline stands only at the end of
    a line, and every line but the last ends with one. *)
Theorem X9_readlines_shape (content : text) :
  newline_translation content (concat (readlines content)) /\
  Forall (fun l => l <> [] /\ ~ In CR l /\ ~ In NL (removelast l))
         (readlines content) /\
  forall l, In l (removelast (readlines content)) -> exists b, l = b ++ [NL].
Proof.
  unfold readlines.
  destruct (split_lines_shape (universal_newlines content)) as (Hc & Hf & Hl).
  split; [rewrite Hc; apply universal_newlines_translation|]. split; [|exact Hl].
  rewrite Forall_forall in *. intros l Hin. destruct (Hf l Hin) as [Hne Hnl].
  repeat split; auto. intros Hcr.
  apply (universal_newlines_no_cr content). rewrite <- Hc.
  apply in_concat. exists l. auto.
Qed.

Lemma universal_newlines_crlf (s : text) :
  ~ In CR s -> universal_newlines (to_crlf s) = s.
Proof.
  induction s as [|c s IH]; [reflexivity|]. intros H.
  assert (~ In CR s) as Hs by (intros Hin; apply H; right; exact Hin).
  unfold to_crlf. cbn [flat_map]. fold (to_crlf s).
  destruct (Ascii.eqb c NL) eqn:E.
  - apply Ascii.eqb_eq in E. subst c. cbn [app universal_newlines].
    change (Ascii.eqb CR CR) with true. change (Ascii.eqb NL NL) with true.
    cbv iota. rewrite IH by assumption. reflexivity.
  - cbn [app universal_newlines].
    destruct (Ascii.eqb c CR) eqn:Ec.
    + apply Ascii.eqb_eq in Ec. subst c. elim H. left. reflexivity.
    + rewrite IH by assumption. reflexivity.
Qed.

(** X10.  Line ends of Windows do not matter: a file without carriage
    returns and the same file with a carriage return before every newline
    give the same lines and the same run. *)
Theorem X10_crlf_file_runs_alike (content : text) :
  ~ In CR content ->
  readlines (to_crlf content) = readlines content /\
  script (to_crlf content) = script content.
Proof.
  intros H.
  assert (readlines (to_crlf content) = readlines content) as E.
  { unfold readlines. rewrite universal_newlines_crlf, universal_newlines_plain by assumption.
    reflexivity. }
  split; [exact E|]. unfold script. rewrite E. reflexivity.
Qed.

(** ** The run, case by case *)

Lemma body_Raised_state (n : nat) (l : text) (s : state) :
  sample_of l = None ->
  exists e s' bs rs,
    body n l s = (Raised e, s') /\
    classify e = FormatError /\ error_line e = Some n /\
    out s' = out s ++ [Print l] /\
    bins s' = bins s ++ bs /\ real s' = real s ++ rs /\ imag s' = imag s /\
    length rs <= length bs <= 1.
Proof.
  unfold sample_of, body, bind, int_of, or_raise, emit. simpl.
  rewrite field_token.
  destruct (token BIN_OPEN BIN_CLOSE l) as [tb|].
  2:{ intros _. exists (match str_index BIN_OPEN l with
                        | None => TokenNotFound n BIN_OPEN
                        | Some _ => TokenNotFound n BIN_CLOSE
                        end), (mkState (out s ++ [Print l]) (bins s) (real s) (imag s)),
                [], [].
      simpl. rewrite !app_nil_r. destruct (str_index BIN_OPEN l); auto 10. }
  destruct (py_int 10 tb) as [b|]; simpl.
  2:{ intros _. eexists _, _, [], []. simpl. rewrite !app_nil_r. auto 10. }
  rewrite field_token.
  destruct (token REAL_OPEN SPACE l) as [tr|].
  2:{ intros _. exists (match str_index REAL_OPEN l with
                        | None => TokenNotFound n REAL_OPEN
                        | Some _ => TokenNotFound n SPACE
                        end),
                (mkState (out s ++ [Print l]) (bins s ++ [b]) (real s) (imag s)),
                [b], [].
      simpl. rewrite !app_nil_r. destruct (str_index REAL_OPEN l); auto 10. }
  destruct (py_int 16 tr) as [r|]; simpl.
  2:{ intros _. eexists _, _, [b], []. simpl. rewrite !app_nil_r. auto 10. }
  rewrite field_token.
  destruct (token IMAG_OPEN SPACE l) as [ti|].
  2:{ intros _. exists (match str_index IMAG_OPEN l with
                        | None => TokenNotFound n IMAG_OPEN
                        | Some _ => TokenNotFound n SPACE
                        end),
                (mkState (out s ++ [Print l]) (bins s ++ [b]) (real s ++ [r]) (imag s)),
                [b], [r].
      simpl. destruct (str_index IMAG_OPEN l); auto 10. }
  destruct (py_int 16 ti) as [i|]; simpl; [discriminate|].
  intros _. eexists _, _, [b], [r]. simpl. auto 10.
Qed.

Lemma for_each_Raised_state (good : list text) (ts : list sample)
    (bad : text) (rest : list text) :
  Forall2 (fun l t => sample_of l = Some t) good ts ->
  sample_of bad = None ->
  forall n s, exists e s' bs rs,
    for_each n (good ++ bad :: rest) s = (Raised e, s') /\
    classify e = FormatError /\ error_line e = Some (n + length good) /\
    out s' = out s ++ map Print (good ++ [bad]) /\
    bins s' = bins s ++ map bin_of ts ++ bs /\
    real s' = real s ++ map real_of ts ++ rs /\
    imag s' = imag s ++ map imag_of ts /\
    length rs <= length bs <= 1.
Proof.
  intros Hg Hb. induction Hg as [|l t good ts Hl _ IH]; intros n s.
  - destruct (body_Raised_state n bad s Hb)
      as (e & s' & bs & rs & E & Hc & Hn & Ho & Hbs & Hrs & His & Hlen).
    exists e, s', bs, rs. cbn [app for_each]. unfold bind. rewrite E.
    simpl. rewrite Nat.add_0_r, app_nil_r. auto 10.
  - destruct (IH (S n) (push s l t))
      as (e & s' & bs & rs & E & Hc & Hn & Ho & Hbs & Hrs & His & Hlen).
    exists e, s', bs, rs. cbn [app for_each]. unfold bind.
    rewrite (body_Done n l t s Hl), E, Hn, Ho, Hbs, Hrs, His.
    simpl. rewrite <- !app_assoc. simpl.
    replace (S (n + length good)) with (n + S (length good)) by lia.
    repeat split; auto; lia.
Qed.

Lemma block_cases_samples (block : list text) :
  (exists ts, Forall2 (fun l t => sample_of l = Some t) block ts) \/
  (exists good ts bad rest, block = good ++ bad :: rest /\
     Forall2 (fun l t => sample_of l = Some t) good ts /\ sample_of bad = None).
Proof.
  induction block as [|l block IH].
  - left. exists []. constructor.
  - destruct (sample_of l) as [t|] eqn:El.
    + destruct IH as [[ts H] | (good & ts & bad & rest & -> & Hg & Hb)].
      * left. exists (t :: ts). constructor; assumption.
      * right. exists (l :: good), (t :: ts), bad, rest. repeat split; auto.
    + right. exists [], [], l, block. repeat split; auto.
Qed.

Lemma no_sample_iff (l : text) :
  sample_of l = None <-> forall t, ~ data_line l t.
Proof.
  split.
  - intros H t Ht. apply sample_of_iff in Ht. congruence.
  - intros H. destruct (sample_of l) as [t|] eqn:E; [|reflexivity].
    apply sample_of_iff in E. elim (H t E).
Qed.

Lemma main_read_block (lines : list text) (s : state) :
  main lines s = (read_block lines ;;; plot_all) s.
Proof.
  unfold main, read_block, bind, or_raise.
  destruct (list_index HEADER lines) as [h|]; [|reflexivity]. simpl.
  destruct (list_index BLANK (slice_from (h + 1) lines)) as [k|]; reflexivity.
Qed.

Lemma read_block_block (pre block post : list text) (s : state) :
  ~ In HEADER pre -> ~ In BLANK block ->
  read_block (pre ++ HEADER :: block ++ BLANK :: post) s = for_each 0 block s.
Proof.
  intros Hh Hb. unfold read_block, bind at 1, or_raise.
  rewrite (list_index_first _ _ _ Hh). simpl.
  unfold bind at 1, slice_from.
  replace (length pre + 1) with (length (pre ++ [HEADER]))
    by (rewrite length_app; reflexivity).
  replace (pre ++ HEADER :: block ++ BLANK :: post)
    with ((pre ++ [HEADER]) ++ block ++ BLANK :: post)
    by (rewrite <- app_assoc; reflexivity).
  rewrite skipn_app_exact, (list_index_first _ _ _ Hb). simpl.
  rewrite slice_app. reflexivity.
Qed.

Lemma run_after_read_block (lines : list text) (e : error) (st : state) :
  read_block lines initial = (Raised e, st) -> run lines = (Raised e, st).
Proof.
  intros H. unfold run. rewrite main_read_block. unfold bind. rewrite H. reflexivity.
Qed.

(** X1.  Up to the plotting calls a run on ASCII lines goes one of four
    ways, and the file decides which.  Without a header line the header
    search raises; with a header line and no blank line after it the
    search for the blank line raises; in both cases nothing was echoed or
    recorded.  With a block, either the loop raises a FormatError at the
    first line that is no data line, having echoed the lines up to it, and
    the script ends there without a plotting call; or the loop finishes
    with the echo of the whole block and the numbers of its lines in the
    three lists, and the script goes on to call [plt.plot] on [bins] and
    [real]. *)
Theorem X1_four_ways_to_the_plotting_calls (lines : list text) :
  Forall (fun l => is_ascii l = true) lines ->
  (~ In HEADER lines /\
   read_block lines initial = (Raised HeaderNotFound, initial) /\
   run lines = (Raised HeaderNotFound, initial)) \/
  (exists pre rest,
      lines = pre ++ HEADER :: rest /\ ~ In HEADER pre /\ ~ In BLANK rest /\
      read_block lines initial = (Raised BlankNotFound, initial) /\
      run lines = (Raised BlankNotFound, initial)) \/
  (exists pre good bad rest post ts e st,
      lines = pre ++ HEADER :: (good ++ bad :: rest) ++ BLANK :: post /\
      ~ In HEADER pre /\ ~ In BLANK (good ++ bad :: rest) /\
      Forall2 data_line good ts /\ (forall t, ~ data_line bad t) /\
      read_block lines initial = (Raised e, st) /\
      run lines = (Raised e, st) /\
      classify e = FormatError /\ error_line e = Some (length good) /\
      out st = map Print (good ++ [bad])) \/
  (exists pre block post ts,
      lines = pre ++ HEADER :: block ++ BLANK :: post /\
      ~ In HEADER pre /\ ~ In BLANK block /\
      Forall2 data_line block ts /\
      read_block lines initial =
        (Done tt, mkState (map Print block)
                          (map bin_of ts) (map real_of ts) (map imag_of ts)) /\
      exists later,
        out (snd (run lines)) =
        map Print block ++ Plot (map bin_of ts) (map real_of ts) "Real" :: later).
Proof.
  intros _.
  destruct (lines_cases lines)
    as [Hn | [(pre & rest & -> & Hh & Hb) | (pre & block & post & -> & Hh & Hb)]].
  - left. assert (read_block lines initial = (Raised HeaderNotFound, initial)) as E.
    { apply list_index_None in Hn. unfold read_block, bind, or_raise.
      rewrite Hn. reflexivity. }
    auto using run_after_read_block.
  - right. left. exists pre, rest.
    assert (read_block (pre ++ HEADER :: rest) initial =
            (Raised BlankNotFound, initial)) as E.
    { unfold read_block, bind at 1, or_raise.
      rewrite (list_index_first _ _ _ Hh). simpl. unfold bind, slice_from.
      replace (length pre + 1) with (length (pre ++ [HEADER]))
        by (rewrite length_app; reflexivity).
      replace (pre ++ HEADER :: rest) with ((pre ++ [HEADER]) ++ rest)
        by (rewrite <- app_assoc; reflexivity).
      rewrite skipn_app_exact. apply list_index_None in Hb. rewrite Hb. reflexivity. }
    auto 10 using run_after_read_block.
  - destruct (block_cases_samples block)
      as [[ts Hts] | (good & ts & bad & rest & -> & Hg & Hbad)].
    + right. right. right. exists pre, block, post, ts.
      do 3 (split; [auto|]). split; [apply Forall2_data_line; exact Hts|]. split.
      * rewrite read_block_block by assumption.
        rewrite (for_each_Done block ts Hts). reflexivity.
      * rewrite (run_block_Done pre block post ts Hh Hb Hts). simpl.
        eexists. reflexivity.
    + right. right. left.
      assert (Forall (fun l => sample_of l <> None) good) as Hg'.
      { clear -Hg. induction Hg; constructor; auto. congruence. }
      destruct (for_each_Raised good bad rest Hg' Hbad 0 initial)
        as (e & st & E & Hc & Hl & Ho).
      assert (read_block (pre ++ HEADER :: (good ++ bad :: rest) ++ BLANK :: post)
                         initial = (Raised e, st)) as Er
        by (rewrite read_block_block by assumption; exact E).
      exists pre, good, bad, rest, post, ts, e, st.
      do 3 (split; [auto|]). split; [apply Forall2_data_line; exact Hg|].
      split; [apply no_sample_iff; exact Hbad|].
      split; [exact Er|]. split; [apply run_after_read_block; exact Er|]. auto.
Qed.

(** X2.  What a failed run leaves behind.  When the first line of the
    block that is no data line comes after [j] data lines, the run raises
    there; the lines up to and including that line were echoed; the three
    lists begin with the numbers of the [j] data lines, in order; [imag]
    holds nothing more, and [bins] and [real] hold at most one number
    more, [real] only if [bins] does. *)
Theorem X2_failed_run_keeps_the_parsed_lines
    (pre good : list text) (bad : text) (rest post : list text) (ts : list sample) :
  ~ In HEADER pre -> ~ In BLANK (good ++ bad :: rest) ->
  Forall2 data_line good ts -> (forall t, ~ data_line bad t) ->
  exists e st bs rs,
    run (pre ++ HEADER :: (good ++ bad :: rest) ++ BLANK :: post) = (Raised e, st) /\
    classify e = FormatError /\
    error_line e = Some (length good) /\
    out st = map Print (good ++ [bad]) /\
    bins st = map bin_of ts ++ bs /\
    real st = map real_of ts ++ rs /\
    imag st = map imag_of ts /\
    length rs <= length bs <= 1.
Proof.
  intros Hh Hb Hg Hbad. apply Forall2_sample_of in Hg. apply no_sample_iff in Hbad.
  unfold run. rewrite main_block by assumption. unfold bind.
  destruct (for_each_Raised_state good ts bad rest Hg Hbad 0 initial)
    as (e & st & bs & rs & E & Hc & Hn & Ho & Hbs & Hrs & His & Hlen).
  exists e, st, bs, rs. rewrite E. auto 10.
Qed.

(** X3.  Only the first block counts.  What stands before the first
    header line and what stands after the blank line that ends its block,
    other headers and blocks included, has no effect on the run. *)
Theorem X3_only_the_first_block_is_read
    (pre pre' block post post' : list text) :
  ~ In HEADER pre -> ~ In HEADER pre' -> ~ In BLANK block ->
  run (pre ++ HEADER :: block ++ BLANK :: post) =
  run (pre' ++ HEADER :: block ++ BLANK :: post').
Proof.
  intros Hh Hh' Hb. unfold run. rewrite !main_block by assumption. reflexivity.
Qed.

(** ** One line *)

Lemma occurs_at_within (sub s x : text) (j : nat) :
  occurs_at sub (s ++ x) j -> j + length sub <= length s -> occurs_at sub s j.
Proof.
  intros (p & q & E & <-) Hlen.
  rewrite app_assoc in E.
  apply app_eq_app in E as [m [[E1 E2] | [E1 E2]]].
  - exists p, m. rewrite app_assoc. auto.
  - assert (m = []) as ->.
    { apply (f_equal (@length ascii)) in E1. rewrite !length_app in E1.
      destruct m; [reflexivity | simpl in E1; lia]. }
    rewrite app_nil_r in E1. exists p, []. rewrite app_nil_r. auto.
Qed.

Lemma first_at_app (sub s x : text) (i : nat) :
  first_at sub s i -> first_at sub (s ++ x) i.
Proof.
  intros [(p & q & -> & <-) Hmin]. split.
  - exists p, (q ++ x). rewrite <- !app_assoc. auto.
  - intros j Hj. destruct (le_lt_dec (length p) j) as [|Hlt]; [assumption|].
    apply Hmin. eapply occurs_at_within; [exact Hj|].
    rewrite !length_app. lia.
Qed.

Lemma token_between_app (open close l tok extra : text) :
  token_between open close l tok -> token_between open close (l ++ extra) tok.
Proof.
  intros (pre & post & -> & Ho & Hc). exists pre, (post ++ extra).
  split; [rewrite <- !app_assoc; reflexivity|]. split.
  - apply first_at_app. exact Ho.
  - replace (tok ++ close ++ post ++ extra) with ((tok ++ close ++ post) ++ extra)
      by (rewrite <- !app_assoc; reflexivity).
    apply first_at_app. exact Hc.
Qed.

(** X4.  What follows the fields on a line is not looked at.  A line that
    gives a sample still gives it with any text put after it: the three
    searches stop at the first opening delimiter and at the first closing
    delimiter after it. *)
Theorem X4_text_after_the_fields_is_ignored (l extra : text) (t : sample) :
  sample_of l = Some t ->
  sample_of (l ++ extra) = Some t /\
  forall n s, body n (l ++ extra) s = (Done tt, push s (l ++ extra) t).
Proof.
  intros H.
  assert (sample_of (l ++ extra) = Some t) as E.
  { apply sample_of_iff in H as (tb & tr & ti & Hb & Ib & Hr & Ir & Hi & Ii).
    apply sample_of_iff. exists tb, tr, ti.
    repeat split; auto using token_between_app. }
  split; [exact E|]. intros n s. apply body_Done. exact E.
Qed.

(** X5.  The token [field] returns stands in the line between the
    opening delimiter and the closing character, and does not hold the
    closing character itself: a bin token has no closing bracket, a real
    or imaginary token no space.  Looking for a field changes nothing in
    the state. *)
Theorem X5_field_token_excludes_its_close
    (n : nat) (open : text) (c : ascii) (l tok : text) (s s' : state) :
  field n open [c] l s = (Done tok, s') ->
  s' = s /\ ~ In c tok /\
  exists pre post, l = pre ++ open ++ tok ++ [c] ++ post.
Proof.
  rewrite field_token. destruct (token open [c] l) as [tok'|] eqn:E; [|discriminate].
  intros [= -> <-]. split; [reflexivity|].
  apply token_iff in E as (pre & post & -> & _ & _ & Hmin).
  split; [|eauto].
  intros Hin. apply in_split in Hin as (a & b & ->).
  assert (occurs_at [c] ((a ++ c :: b) ++ [c] ++ post) (length a)) as Ho.
  { exists a, (b ++ [c] ++ post). rewrite <- !app_assoc. auto. }
  apply Hmin in Ho. rewrite length_app in Ho. simpl in Ho. lia.
Qed.

(** ** Whitespace around a numeral *)

Lemma space_no_letter (c : ascii) :
  Py_ISSPACE c = true ->
  Ascii.eqb c "x" || Ascii.eqb c "X" = false /\
  Ascii.eqb c "o" || Ascii.eqb c "O" = false /\
  Ascii.eqb c "b" || Ascii.eqb c "B" = false.
Proof.
  destruct c as [[] [] [] [] [] [] [] []]; vm_compute; try discriminate;
    intros _; repeat split.
Qed.

Lemma space_plain (c : ascii) :
  Py_ISSPACE c = true ->
  is_underscore c = false /\ Ascii.eqb c "+" = false /\ Ascii.eqb c "-" = false /\
  Ascii.eqb c "0" = false /\ forall base, prefix_letter base c = false.
Proof.
  intros H. destruct (space_no_letter c H) as (Hx & Ho & Hb).
  assert (forall base, prefix_letter base c = false) as Hp.
  { intros base. unfold prefix_letter. rewrite Hx, Ho, Hb.
    destruct (base =? 16)%Z, (base =? 8)%Z, (base =? 2)%Z; reflexivity. }
  assert (is_underscore c = false /\ Ascii.eqb c "+" = false /\
          Ascii.eqb c "-" = false /\ Ascii.eqb c "0" = false) as (H1 & H2 & H3 & H4).
  { revert H. clear.
    destruct c as [[] [] [] [] [] [] [] []]; vm_compute; try discriminate;
      intros _; repeat split. }
  auto.
Qed.

Lemma lstrip_space_app (ws s : text) : all_space ws -> lstrip (ws ++ s) = lstrip s.
Proof.
  induction 1 as [|c ws Hc _ IH]; [reflexivity|].
  cbn [app lstrip]. rewrite Hc. exact IH.
Qed.

Lemma lstrip_app_space (s ws : text) (c : ascii) (r : text) :
  lstrip s = c :: r -> lstrip (s ++ ws) = (c :: r) ++ ws.
Proof.
  induction s as [|d s IH]; [discriminate|]. cbn [app lstrip].
  destruct (Py_ISSPACE d); [exact IH|]. intros [= -> ->]. reflexivity.
Qed.

Lemma lstrip_blank_app (s ws : text) :
  lstrip s = [] -> all_space ws -> lstrip (s ++ ws) = [].
Proof.
  intros Hs Hw. induction s as [|d s IH].
  - cbn [app]. rewrite <- (app_nil_r ws), lstrip_space_app; [reflexivity | exact Hw].
  - cbn [app lstrip] in *. destruct (Py_ISSPACE d); [auto | discriminate].
Qed.

Lemma split_sign_app (c : ascii) (r ws : text) :
  split_sign ((c :: r) ++ ws) =
  (fst (split_sign (c :: r)), snd (split_sign (c :: r)) ++ ws).
Proof.
  cbn [app split_sign].
  destruct (Ascii.eqb c "+"); [reflexivity|].
  destruct (Ascii.eqb c "-"); reflexivity.
Qed.

Lemma skip_prefix_app (base : Z) (s ws : text) :
  all_space ws -> skip_prefix base (s ++ ws) = skip_prefix base s ++ ws.
Proof.
  intros Hw.
  assert (forall u r, ws = u :: r -> Py_ISSPACE u = true) as Hhd.
  { intros u r ->. inversion Hw; assumption. }
  destruct s as [|c0 [|c s]].
  - cbn [app]. destruct ws as [|u [|u' r]]; try reflexivity.
    unfold skip_prefix. destruct (space_plain u (Hhd _ _ eq_refl)) as (_ & _ & _ & -> & _).
    reflexivity.
  - cbn [app]. destruct ws as [|u r]; [reflexivity|].
    unfold skip_prefix. destruct (space_plain u (Hhd _ _ eq_refl)) as (_ & _ & _ & _ & ->).
    rewrite andb_false_r. reflexivity.
  - cbn [app]. unfold skip_prefix.
    destruct (Ascii.eqb c0 "0" && prefix_letter base c); [|reflexivity].
    destruct s as [|u s]; cbn [app]; [|destruct (is_underscore u); reflexivity].
    destruct ws as [|u r]; [reflexivity|].
    destruct (space_plain u (Hhd _ _ eq_refl)) as (-> & _). reflexivity.
Qed.

Lemma leading_underscore_app (s ws : text) :
  all_space ws -> leading_underscore (s ++ ws) = leading_underscore s.
Proof.
  intros Hw. destruct s as [|c s]; [|reflexivity].
  destruct ws as [|u r]; [reflexivity|]. inversion Hw; subst.
  cbn [app leading_underscore]. apply space_plain. assumption.
Qed.

Lemma scan_digits_app (base : Z) (ws : text) :
  all_space ws ->
  forall s prev_us acc n v n' rest,
    scan_digits base prev_us acc n s = Some (v, n', rest) ->
    scan_digits base prev_us acc n (s ++ ws) = Some (v, n', rest ++ ws).
Proof.
  intros Hw.
  assert (forall acc n, scan_digits base false acc n ws = Some (acc, n, ws)) as Hstop.
  { intros acc n. destruct ws as [|u r]; [reflexivity|]. inversion Hw; subst.
    cbn [scan_digits]. destruct (space_plain u) as (-> & _); [assumption|].
    rewrite (space_not_digit u) by assumption. reflexivity. }
  induction s as [|c s IH]; intros p acc n v n' rest.
  - cbn [scan_digits app]. destruct p; [discriminate|]. intros [= <- <- <-]. apply Hstop.
  - cbn [scan_digits app]. destruct (is_underscore c).
    + destruct p; [discriminate|]. apply IH.
    + destruct (digit_value c) as [d|].
      * destruct (d <? base)%Z; [apply IH|].
        destruct p; [discriminate|]. intros [= <- <- <-]. reflexivity.
      * destruct p; [discriminate|]. intros [= <- <- <-]. reflexivity.
Qed.

Lemma py_int_space_app (base : Z) (ws s : text) :
  all_space ws -> py_int base (ws ++ s) = py_int base s.
Proof. intros Hw. unfold py_int. rewrite lstrip_space_app by assumption. reflexivity. Qed.

Lemma py_int_app_space (base : Z) (s ws : text) (v : Z) :
  all_space ws -> py_int base s = Some v -> py_int base (s ++ ws) = Some v.
Proof.
  intros Hw. unfold py_int. destruct (lstrip s) as [|c r] eqn:El; [discriminate|].
  rewrite (lstrip_app_space s ws c r El), split_sign_app.
  destruct (split_sign (c :: r)) as [neg s2]. cbn [fst snd].
  rewrite skip_prefix_app, leading_underscore_app by assumption.
  destruct (leading_underscore (skip_prefix base s2)); [discriminate|].
  destruct (scan_digits base false 0 0 (skip_prefix base s2))
    as [[[m n] rest]|] eqn:Escan; [|discriminate].
  rewrite (scan_digits_app base ws Hw _ _ _ _ _ _ _ Escan).
  destruct (n =? 0)%nat; [discriminate|].
  destruct (negb (within_limit base n)); [discriminate|].
  destruct (lstrip rest) eqn:Er; [|discriminate].
  rewrite (lstrip_blank_app rest ws Er Hw). auto.
Qed.

(** X6.  [int] does not see whitespace around a numeral: a text it reads
    as [v] is read as [v] with tabs, line breaks or spaces put before and
    after it. *)
Theorem X6_int_ignores_whitespace_around (base : Z) (before s after : text) (v : Z) :
  all_space before -> all_space after -> py_int base s = Some v ->
  py_int base (before ++ s ++ after) = Some v.
Proof.
  intros Hb Ha H. rewrite py_int_space_app by assumption.
  apply py_int_app_space; assumption.
Qed.

(** X7.  The three numbers the loop body appends for a line are the
    values of the digits of the tokens [field] cuts, the bin in base 10
    and the real and imaginary parts in base 16, negated when a minus
    sign leads the token. *)
Theorem X7_numbers_are_signed_digit_values
    (n : nat) (l tb tr ti : text) (s s' : state) :
  body n l s = (Done tt, s') ->
  field n BIN_OPEN BIN_CLOSE l s = (Done tb, s) ->
  field n REAL_OPEN SPACE l s = (Done tr, s) ->
  field n IMAG_OPEN SPACE l s = (Done ti, s) ->
  bins s' = bins s ++ [signed_value 10 tb] /\
  real s' = real s ++ [signed_value 16 tr] /\
  imag s' = imag s ++ [signed_value 16 ti].
Proof.
  intros Hbody Hb Hr Hi.
  apply field_Done_iff in Hb as [Hb _]. apply field_Done_iff in Hr as [Hr _].
  apply field_Done_iff in Hi as [Hi _].
  destruct (body_reads_tokens n l s s' tb tr ti Hbody Hb Hr Hi)
    as (b & r & i & Eb & Er & Ei & ->).
  apply py_int_value in Eb, Er, Ei. unfold signed_value. simpl.
  rewrite Eb, Er, Ei. auto.
Qed.

Lemma not_in_by_test (c : ascii) (s : text) :
  existsb (Ascii.eqb c) s = false -> ~ In c s.
Proof.
  intros H Hin. assert (existsb (Ascii.eqb c) s = true) as E; [|congruence].
  apply existsb_exists. exists c. split; [assumption | apply Ascii.eqb_refl].
Qed.

(** ** The script on a file *)

Lemma header_full_line : full_line HEADER.
Proof.
  exists HEADER_TEXT. split; [reflexivity|].
  split; apply not_in_by_test; reflexivity.
Qed.

(** X11.  A block that runs to the end of the file is not read.  When the
    lines after the first header line are all there is, none of them
    blank, and the file ends with or without a last unfinished line, the
    search for the blank line raises, however well-formed the data lines
    are; nothing is echoed or plotted. *)
Theorem X11_block_at_end_of_file_is_not_read
    (pre block : list text) (last : text) :
  Forall full_line pre -> Forall full_line block -> one_line last ->
  ~ In HEADER pre -> ~ In BLANK block ->
  script (concat (pre ++ HEADER :: block) ++ last) =
  (Raised BlankNotFound, initial).
Proof.
  intros Hpre Hblock Hlast Hh Hb. unfold script, readlines.
  assert (Forall full_line (pre ++ HEADER :: block)) as Hall.
  { apply Forall_app. split; [assumption|].
    constructor; [apply header_full_line | assumption]. }
  destruct Hlast as [Hn Hc].
  rewrite universal_newlines_plain by (apply concat_no_cr; assumption).
  rewrite split_lines_concat by assumption.
  rewrite <- app_assoc. cbn [app]. unfold run. apply main_no_blank; [assumption|].
  rewrite in_app_iff. intros [H | H]; [contradiction|].
  destruct last as [|c r]; [elim H|].
  destruct H as [E | []]. apply Hn. rewrite E. left. reflexivity.
Qed.

Lemma run_echo (lines : list text) (o : outcome unit) (st : state) :
  run lines = (o, st) ->
  exists echoed tail,
    out st = map Print echoed ++ tail /\
    Forall (fun e => printed e = []) tail /\
    forall l, In l echoed -> In l (removelast lines).
Proof.
  intros Hrun.
  destruct (lines_cases lines)
    as [Hn | [(pre & rest & -> & Hh & Hb) | (pre & block & post & -> & Hh & Hb)]].
  - unfold run in Hrun. rewrite main_no_header in Hrun by assumption.
    injection Hrun as <- <-. exists [], []. simpl. repeat split; auto. intros l [].
  - unfold run in Hrun. rewrite main_no_blank in Hrun by assumption.
    injection Hrun as <- <-. exists [], []. simpl. repeat split; auto. intros l [].
  - assert (forall l, In l block ->
              In l (removelast (pre ++ HEADER :: block ++ BLANK :: post))) as Hin.
    { intros l Hl.
      replace (pre ++ HEADER :: block ++ BLANK :: post)
        with ((pre ++ HEADER :: block) ++ BLANK :: post)
        by (rewrite <- app_assoc; reflexivity).
      rewrite removelast_app by discriminate.
      rewrite !in_app_iff. left. right. right. exact Hl. }
    destruct (block_cases block) as [[ts Hts] | (good & bad & rest & -> & Hg & Hbad)].
    + rewrite (run_block_Done pre block post ts Hh Hb Hts) in Hrun.
      injection Hrun as <- <-. eexists block, _. simpl.
      split; [reflexivity|]. split; [repeat constructor | exact Hin].
    + destruct (run_block_Raised pre good bad rest post Hh Hb Hg Hbad)
        as (e & st' & E & _ & _ & Ho).
      rewrite E in Hrun. injection Hrun as <- <-.
      exists (good ++ [bad]), []. rewrite app_nil_r.
      split; [exact Ho|]. split; [constructor|].
      intros l Hl. apply Hin. rewrite in_app_iff in *. simpl in *. tauto.
Qed.

Lemma stdout_echo (echoed : list text) (tail : list event) :
  Forall (fun e => printed e = []) tail ->
  concat (map printed (map Print echoed ++ tail)) =
  concat (map (fun l => l ++ [NL]) echoed).
Proof.
  intros Ht. rewrite map_app, concat_app, map_map.
  assert (concat (map printed tail) = []) as ->.
  { induction Ht as [|e tail He _ IH]; [reflexivity|]. simpl. rewrite He, IH. reflexivity. }
  rewrite app_nil_r. reflexivity.
Qed.

(** X12.  The echo is double spaced.  Whatever the file holds and however
    the run ends, the standard output is the echoed lines of the file,
    each without line break inside and each followed by two newlines: its
    own, which [readlines] left on it, and the one [print] adds. *)
Theorem X12_echo_is_double_spaced
    (content : text) (o : outcome unit) (st : state) :
  script content = (o, st) ->
  exists echoed,
    stdout st = concat (map (fun b => b ++ [NL; NL]) echoed) /\
    Forall (fun b => ~ In NL b /\ ~ In CR b /\ In (b ++ [NL]) (readlines content))
           echoed.
Proof.
  unfold script. intros Hrun.
  destruct (run_echo _ _ _ Hrun) as (ls & tail & Ho & Ht & Hin).
  destruct (split_lines_shape (universal_newlines content)) as (Hc & Hf & Hl).
  fold (readlines content) in Hc, Hf, Hl.
  rewrite Forall_forall in Hf.
  assert (forall l, In l ls ->
            l = removelast l ++ [NL] /\ ~ In NL (removelast l) /\
            ~ In CR (removelast l) /\ In l (readlines content)) as Hline.
  { intros l Hl0. pose proof (Hin l Hl0) as Hr.
    destruct (Hl l Hr) as [b ->].
    assert (In (b ++ [NL]) (readlines content)) as Hmem.
    { clear -Hr. revert Hr. generalize (readlines content) as xs.
      induction xs as [|x xs IH]; [intros []|].
      destruct xs as [|y xs]; [intros []|].
      change (removelast (x :: y :: xs)) with (x :: removelast (y :: xs)).
      intros [-> | H]; [left; reflexivity | right; apply IH; exact H]. }
    rewrite removelast_last. repeat split; auto.
    - destruct (Hf _ Hmem) as [_ Hnl]. rewrite removelast_last in Hnl. exact Hnl.
    - intros Hcr. apply (universal_newlines_no_cr content). rewrite <- Hc.
      apply in_concat. exists (b ++ [NL]). split; [exact Hmem|].
      apply in_app_iff. left. exact Hcr. }
  exists (map (@removelast ascii) ls). split.
  - unfold stdout. rewrite Ho, (stdout_echo ls tail Ht), map_map.
    f_equal. apply map_ext_in. intros l Hl0.
    destruct (Hline l Hl0) as (E & _). rewrite E at 1.
    rewrite <- app_assoc. reflexivity.
  - apply Forall_forall. intros b Hb. apply in_map_iff in Hb as (l & <- & Hl0).
    destruct (Hline l Hl0) as (E & Hn & Hcr & Hmem).
    rewrite <- E. auto.
Qed.

End Interpreter.

(** * The properties on concrete files

    The interpreter's digit limit is at its default, 4300. *)

Lemma C1_witness :
  exists st,
    run 4300 ([line_junk] ++ HEADER :: [line_a; line_b] ++ BLANK :: [line_junk])
    = (Done tt, st) /\
    length (bins st) = length [line_a; line_b] /\
    bins st = map bin_of [(0, 10, 4294967286); (1, 20, 4294967276)]%Z /\
    real st = map real_of [(0, 10, 4294967286); (1, 20, 4294967276)]%Z /\
    imag st = map imag_of [(0, 10, 4294967286); (1, 20, 4294967276)]%Z /\
    out st = map Print [line_a; line_b] ++ chart_of (bins st) (real st) (imag st).
Proof.
  apply (C1_one_record_per_data_line 4300 [line_junk] [line_a; line_b] [line_junk]).
  - vm_compute. reflexivity.
  - repeat constructor; apply sample_of_iff; vm_compute; reflexivity.
Defined.

Lemma C4_witness :
  run 4300 ([line_junk] ++ HEADER :: [line_a; line_b]) =
  (Raised BlankNotFound, initial) /\
  classify BlankNotFound = NotFoundError.
Proof.
  apply (C4_no_blank_line_is_not_found 4300 [line_junk] [line_a; line_b]).
  - simpl. intuition discriminate.
  - simpl. intuition discriminate.
Defined.

Lemma C5_witness :
  run 4300 [line_junk; line_a; BLANK] = (Raised HeaderNotFound, initial) /\
  classify HeaderNotFound = NotFoundError.
Proof.
  apply (C5_no_header_is_not_found 4300 [line_junk; line_a; BLANK]).
  simpl. intuition discriminate.
Defined.

Lemma C6_witness :
  run 4300 ([line_junk] ++ (HEADER_TEXT ++ txt " " ++ [NL]) :: [line_a; BLANK]) =
  (Raised HeaderNotFound, initial) /\
  classify HeaderNotFound = NotFoundError.
Proof.
  apply (proj2 (proj2 (C6_header_match_is_exact 4300))).
  - apply (proj1 (proj2 (C6_header_match_is_exact 4300))). discriminate.
  - simpl. intuition discriminate.
  - simpl. intuition discriminate.
Defined.

Lemma C7_witness :
  run 4300 ([line_junk] ++ HEADER :: BLANK :: [line_a]) =
  (Done tt, mkState (chart_of [] [] []) [] [] []).
Proof.
  apply (C7_empty_block_plots_empty_chart 4300 [line_junk] [line_a]).
  simpl. intuition discriminate.
Defined.

Lemma C3_witness :
  real (push initial line_a (0, 10, 4294967286)%Z) =
    real initial ++ [radix_value 16 (digits_below 16 (txt "0x0000000A"))] /\
  imag (push initial line_a (0, 10, 4294967286)%Z) =
    imag initial ++ [radix_value 16 (digits_below 16 (txt "0xFFFFFFF6"))] /\
  (0 <= radix_value 16 (digits_below 16 (txt "0x0000000A")))%Z /\
  (0 <= radix_value 16 (digits_below 16 (txt "0xFFFFFFF6")))%Z.
Proof.
  apply (proj1 (C3_hex_tokens_are_read_unsigned 4300) 0 line_a).
  - vm_compute. reflexivity.
  - vm_compute. reflexivity.
  - vm_compute. reflexivity.
  - reflexivity.
  - reflexivity.
Defined.

Lemma C8_witness :
  sample_of 4300 (line_of (3, 1, 2)%Z) = Some (3, 1, 2)%Z /\
  forall n s, body 4300 n (line_of (3, 1, 2)%Z) s =
              (Done tt, push s (line_of (3, 1, 2)%Z) (3, 1, 2)%Z).
Proof.
  apply (C8_written_sample_reads_back 4300 line_reversed).
  vm_compute. reflexivity.
Defined.

Lemma C9_witness :
  exists pre block post,
    [line_junk; HEADER; line_a; line_b; BLANK] =
      pre ++ HEADER :: block ++ BLANK :: post /\
    ~ In HEADER pre /\ ~ In BLANK block /\
    length [0; 1]%Z = length block /\
    length [10; 20]%Z = length block /\
    length [4294967286; 4294967276]%Z = length block /\
    forall xs ys label,
      In (Plot xs ys label)
         (map Print [line_a; line_b] ++
          chart_of [0; 1] [10; 20] [4294967286; 4294967276])%Z ->
      length xs = length block /\ length ys = length block.
Proof.
  apply (C9_lists_have_block_length 4300 [line_junk; HEADER; line_a; line_b; BLANK]
           (mkState (map Print [line_a; line_b] ++
                     chart_of [0; 1] [10; 20] [4294967286; 4294967276])%Z
                    [0; 1]%Z [10; 20]%Z [4294967286; 4294967276]%Z)).
  vm_compute. reflexivity.
Defined.

Lemma C10_witness :
  body 4300 0 (line_in [FImag; FReal; FBin] (3, 1, 2)%Z) initial =
  (Done tt, push initial (line_in [FImag; FReal; FBin] (3, 1, 2)%Z) (3, 1, 2)%Z).
Proof.
  apply (proj1 (proj2 (proj2 (C10_field_order_is_not_checked 4300)))).
  - apply Permutation_sym, (Permutation_rev [FBin; FReal; FImag]).
  - vm_compute. reflexivity.
Defined.

Lemma C2_witness :
  exists e st j bad,
    run 4300 ([line_junk] ++ HEADER :: [line_a; line_no_space; line_b] ++
              BLANK :: [line_junk]) = (Raised e, st) /\
    classify e = FormatError /\
    error_line e = Some j /\ j <= 1 /\
    nth_error [line_a; line_no_space; line_b] j = Some bad /\
    (forall t, ~ data_line 4300 bad t) /\
    Forall (fun l' => exists t, data_line 4300 l' t)
           (firstn j [line_a; line_no_space; line_b]) /\
    (Forall (fun l' => exists t, data_line 4300 l' t)
            (firstn 1 [line_a; line_no_space; line_b]) -> j = 1) /\
    out st = map Print (firstn (S j) [line_a; line_no_space; line_b]) /\
    (forall ev, In ev (out st) -> is_chart ev = false).
Proof.
  apply (proj1 (C2_missing_token_stops_before_chart 4300)
           [line_junk] [line_a; line_no_space; line_b] [line_junk] 1 line_no_space).
  - simpl. intuition discriminate.
  - simpl. intuition discriminate.
  - reflexivity.
  - apply lacks_token_iff. right. right. vm_compute. reflexivity.
Defined.

(** C2, as stated, fails when an earlier line of the block does not
    parse.  In the block below the second line has none of the
    delimiters; the first has all six and a bin that is no numeral.  The
    run stops at the first line, not at the line that lacks the
    delimiters. *)
Lemma C2_counterexample :
  nth_error [line_bad_bin; line_junk] 1 = Some line_junk /\
  lacks_token line_junk /\
  ~ lacks_token line_bad_bin /\
  run 4300 ([] ++ HEADER :: [line_bad_bin; line_junk] ++ BLANK :: []) =
    (Raised (BadInt 0 (txt "x") 10), mkState [Print line_bad_bin] [] [] []) /\
  ~ (exists e st,
        run 4300 ([] ++ HEADER :: [line_bad_bin; line_junk] ++ BLANK :: []) =
          (Raised e, st) /\
        error_line e = Some 1).
Proof.
  split; [reflexivity|].
  split; [apply lacks_token_iff; left; vm_compute; reflexivity|].
  split.
  { rewrite lacks_token_iff. vm_compute. intuition discriminate. }
  assert (run 4300 ([] ++ HEADER :: [line_bad_bin; line_junk] ++ BLANK :: []) =
          (Raised (BadInt 0 (txt "x") 10), mkState [Print line_bad_bin] [] [] []))
    as E by (vm_compute; reflexivity).
  split; [exact E|].
  intros (e & st & H & Hl). rewrite E in H. injection H as <- _. discriminate.
Qed.

(** * The further properties on concrete files *)

Lemma X1_witness :
  (~ In HEADER scenario /\
   read_block 4300 scenario initial = (Raised HeaderNotFound, initial) /\
   run 4300 scenario = (Raised HeaderNotFound, initial)) \/
  (exists pre rest,
      scenario = pre ++ HEADER :: rest /\ ~ In HEADER pre /\ ~ In BLANK rest /\
      read_block 4300 scenario initial = (Raised BlankNotFound, initial) /\
      run 4300 scenario = (Raised BlankNotFound, initial)) \/
  (exists pre good bad rest post ts e st,
      scenario = pre ++ HEADER :: (good ++ bad :: rest) ++ BLANK :: post /\
      ~ In HEADER pre /\ ~ In BLANK (good ++ bad :: rest) /\
      Forall2 (data_line 4300) good ts /\ (forall t, ~ data_line 4300 bad t) /\
      read_block 4300 scenario initial = (Raised e, st) /\
      run 4300 scenario = (Raised e, st) /\
      classify e = FormatError /\ error_line e = Some (length good) /\
      out st = map Print (good ++ [bad])) \/
  (exists pre block post ts,
      scenario = pre ++ HEADER :: block ++ BLANK :: post /\
      ~ In HEADER pre /\ ~ In BLANK block /\
      Forall2 (data_line 4300) block ts /\
      read_block 4300 scenario initial =
        (Done tt, mkState (map Print block)
                          (map bin_of ts) (map real_of ts) (map imag_of ts)) /\
      exists later,
        out (snd (run 4300 scenario)) =
        map Print block ++ Plot (map bin_of ts) (map real_of ts) "Real" :: later).
Proof.
  apply (X1_four_ways_to_the_plotting_calls 4300 scenario).
  repeat constructor.
Defined.

Lemma X2_witness :
  exists e st bs rs,
    run 4300 ([line_junk] ++ HEADER :: ([line_a] ++ line_bad_bin :: [line_b]) ++
              BLANK :: []) = (Raised e, st) /\
    classify e = FormatError /\
    error_line e = Some (length [line_a]) /\
    out st = map Print ([line_a] ++ [line_bad_bin]) /\
    bins st = map bin_of [(0, 10, 4294967286)%Z] ++ bs /\
    real st = map real_of [(0, 10, 4294967286)%Z] ++ rs /\
    imag st = map imag_of [(0, 10, 4294967286)%Z] /\
    length rs <= length bs <= 1.
Proof.
  apply (X2_failed_run_keeps_the_parsed_lines 4300 [line_junk] [line_a]
           line_bad_bin [line_b] [] [(0, 10, 4294967286)%Z]).
  - simpl. intuition discriminate.
  - simpl. intuition discriminate.
  - repeat constructor. apply sample_of_iff. vm_compute. reflexivity.
  - apply no_sample_iff. vm_compute. reflexivity.
Defined.

Lemma X3_witness :
  run 4300 ([line_junk] ++ HEADER :: [line_a] ++ BLANK :: [HEADER; line_b; BLANK]) =
  run 4300 ([] ++ HEADER :: [line_a] ++ BLANK :: []).
Proof.
  apply (X3_only_the_first_block_is_read 4300 [line_junk] [] [line_a]
           [HEADER; line_b; BLANK] []).
  - simpl. intuition discriminate.
  - simpl. tauto.
  - simpl. intuition discriminate.
Defined.

Lemma X4_witness :
  sample_of 4300 (line_a ++ txt "# checked") = Some (0, 10, 4294967286)%Z /\
  forall n s, body 4300 n (line_a ++ txt "# checked") s =
              (Done tt, push s (line_a ++ txt "# checked") (0, 10, 4294967286)%Z).
Proof.
  apply (X4_text_after_the_fields_is_ignored 4300 line_a (txt "# checked")).
  vm_compute. reflexivity.
Defined.

Lemma X5_witness :
  initial = initial /\ ~ In "]"%char (txt "0") /\
  exists pre post, line_a = pre ++ BIN_OPEN ++ txt "0" ++ ["]"%char] ++ post.
Proof.
  apply (X5_field_token_excludes_its_close 0 BIN_OPEN "]" line_a (txt "0")
           initial initial).
  vm_compute. reflexivity.
Defined.

Lemma X6_witness :
  py_int 4300 16 ([TAB] ++ txt "0x1F" ++ [NL]) = Some 31%Z.
Proof.
  apply (X6_int_ignores_whitespace_around 4300 16 [TAB] (txt "0x1F") [NL]).
  - repeat constructor.
  - repeat constructor.
  - vm_compute. reflexivity.
Defined.

Lemma X7_witness :
  bins (push initial line_signed (-3, -10, 31)%Z) =
    bins initial ++ [signed_value 10 (txt "-3")] /\
  real (push initial line_signed (-3, -10, 31)%Z) =
    real initial ++ [signed_value 16 (txt "-0xA")] /\
  imag (push initial line_signed (-3, -10, 31)%Z) =
    imag initial ++ [signed_value 16 (txt "+0x_1f")].
Proof.
  apply (X7_numbers_are_signed_digit_values 4300 0 line_signed).
  - vm_compute. reflexivity.
  - vm_compute. reflexivity.
  - vm_compute. reflexivity.
  - vm_compute. reflexivity.
Defined.

Lemma X8_witness :
  readlines (concat [HEADER; line_a; BLANK] ++ txt "end") =
    [HEADER; line_a; BLANK] ++ [txt "end"] /\
  script 4300 (concat [HEADER; line_a; BLANK] ++ txt "end") =
    run 4300 ([HEADER; line_a; BLANK] ++ [txt "end"]).
Proof.
  apply (X8_readlines_gives_the_lines_written 4300 [HEADER; line_a; BLANK] (txt "end")).
  - repeat constructor.
    + exists HEADER_TEXT. split; [reflexivity|].
      split; apply not_in_by_test; reflexivity.
    + exists (txt "Bin[0] Real=0x0000000A Imag=0xFFFFFFF6 "). split; [reflexivity|].
      split; apply not_in_by_test; reflexivity.
    + exists []. split; [reflexivity|]. split; intros [].
  - split; apply not_in_by_test; reflexivity.
Defined.

Lemma X9_witness :
  newline_translation (txt "a" ++ [CR; NL] ++ txt "b" ++ [CR] ++ txt "c")
                      (concat (readlines (txt "a" ++ [CR; NL] ++ txt "b" ++ [CR] ++ txt "c"))) /\
  Forall (fun l => l <> [] /\ ~ In CR l /\ ~ In NL (removelast l))
         (readlines (txt "a" ++ [CR; NL] ++ txt "b" ++ [CR] ++ txt "c")) /\
  forall l, In l (removelast (readlines (txt "a" ++ [CR; NL] ++ txt "b" ++ [CR] ++ txt "c"))) ->
            exists b, l = b ++ [NL].
Proof. exact (X9_readlines_shape (txt "a" ++ [CR; NL] ++ txt "b" ++ [CR] ++ txt "c")). Defined.

Lemma X10_witness :
  readlines (to_crlf (concat scenario)) = readlines (concat scenario) /\
  script 4300 (to_crlf (concat scenario)) = script 4300 (concat scenario).
Proof.
  apply (X10_crlf_file_runs_alike 4300 (concat scenario)).
  apply not_in_by_test. reflexivity.
Defined.

Lemma X11_witness :
  script 4300 (concat ([line_junk] ++ HEADER :: [line_a; line_b]) ++ txt "Bin[2] Re") =
  (Raised BlankNotFound, initial).
Proof.
  apply (X11_block_at_end_of_file_is_not_read 4300 [line_junk] [line_a; line_b]
           (txt "Bin[2] Re")).
  - repeat constructor. exists (txt "junk"). split; [reflexivity|].
    split; apply not_in_by_test; reflexivity.
  - repeat constructor.
    + exists (txt "Bin[0] Real=0x0000000A Imag=0xFFFFFFF6 "). split; [reflexivity|].
      split; apply not_in_by_test; reflexivity.
    + exists (txt "Bin[1] Real=0x00000014 Imag=0xFFFFFFEC "). split; [reflexivity|].
      split; apply not_in_by_test; reflexivity.
  - split; apply not_in_by_test; reflexivity.
  - simpl. intuition discriminate.
  - simpl. intuition discriminate.
Defined.

Lemma X12_witness :
  exists echoed,
    stdout (snd (script 4300 (concat scenario))) =
      concat (map (fun b => b ++ [NL; NL]) echoed) /\
    Forall (fun b => ~ In NL b /\ ~ In CR b /\
                     In (b ++ [NL]) (readlines (concat scenario)))
           echoed.
Proof.
  apply (X12_echo_is_double_spaced 4300 (concat scenario)
           (fst (script 4300 (concat scenario)))).
  apply surjective_pairing.
Defined.
